(** * Grammatical gender, German to French: the notebook's pipeline

    A shallow embedding of [notebooks/grammaticalgender fr-de.ipynb].  The
    notebook is a straight line of pandas, [re] and scikit-learn calls; each
    call is embedded as a function of the same name, each notebook cell as a
    definition named after the variable the cell assigns.

    Conventions.
    - A Python [str] is a list of code points ([char] is [N]).
    - A table cell is a text or the missing value [NaN], and every column
      is of dtype [object]: the columns of the dictionary file hold text,
      and the inference of numeric column types is outside the model.
    - A call that can raise returns a [result]; exceptions are [exn].
    - Counts are [Z]: NumPy accumulates them in [int64], and an array has at
      most [2^63 - 1] entries, so no count of entries can wrap around. *)

From Stdlib Require Import String Ascii NArith ZArith QArith Bool Arith Lia List.
From Stdlib Require Import Permutation.
Import ListNotations.
Close Scope Q_scope.

Set Implicit Arguments.

(** ** Python values *)

Definition char := N.
Definition str := list char.

(** The code point of an ASCII character, and the text of an ASCII literal. *)
Definition cp (a : ascii) : char := N_of_ascii a.
Definition py (s : string) : str := List.map cp (list_ascii_of_string s).

Definition char_eqb : char -> char -> bool := N.eqb.
Definition str_eqb (a b : str) : bool :=
  if list_eq_dec N.eq_dec a b then true else false.

(** A cell of a table column: a text, or pandas' missing value. *)
Inductive cell :=
| NaN
| Str (s : str).

Definition notna (c : cell) : bool :=
  match c with NaN => false | Str _ => true end.

Definition cell_eqb (a b : cell) : bool :=
  match a, b with
  | NaN, NaN => true
  | Str x, Str y => str_eqb x y
  | _, _ => false
  end.

(** ** Exceptions and the error monad *)

Inductive exn :=
| FileNotFoundError
| ParserError
| KeyError
| TypeError
| IndexError
| ValueError_inconsistent_samples   (* check_consistent_length *)
| ValueError_unknown_target         (* a label sequence that starts with a non-text *)
| ValueError_no_labels              (* labels=[] *)
| ValueError_label_not_in_y_true    (* none of y_true is in labels *)
| ValueError_duplicate_axis.        (* reindexing on duplicate labels *)

Inductive result (A : Type) :=
| Ok (a : A)
| Error (e : exn).
Arguments Ok {A} a.
Arguments Error {A} e.

Definition bind {A B} (r : result A) (k : A -> result B) : result B :=
  match r with
  | Ok a => k a
  | Error e => Error e
  end.

Declare Scope result_scope.
Delimit Scope result_scope with result.
Notation "x <- c ;; k" := (bind c (fun x => k))
  (at level 61, c at next level, right associativity) : result_scope.
Open Scope result_scope.

Fixpoint mapM {A B} (f : A -> result B) (l : list A) : result (list B) :=
  match l with
  | [] => Ok []
  | a :: l' => b <- f a ;; bs <- mapM f l' ;; Ok (b :: bs)
  end.

Definition raises {A} (r : result A) : Prop := exists e, r = Error e.

(** ** Python's [re], for patterns without repetition *)

Module Re.

(** The constructs the notebook's two patterns use.  Both patterns are one
    group around the whole expression, so group 1 is the whole match. *)
Inductive regex :=
| Lit (c : char)              (* an escaped or plain character *)
| Class (cs : list char)      (* [...] *)
| Dot                         (* . : any character but a newline *)
| Seq (r1 r2 : regex)
| Alt (r1 r2 : regex).        (* r1|r2, r1 tried first *)

Definition newline : char := 10%N.

(** The words a pattern describes. *)
Inductive matches : regex -> str -> Prop :=
| m_lit c : matches (Lit c) [c]
| m_class cs c : In c cs -> matches (Class cs) [c]
| m_dot c : c <> newline -> matches Dot [c]
| m_seq r1 r2 w1 w2 : matches r1 w1 -> matches r2 w2 -> matches (Seq r1 r2) (w1 ++ w2)
| m_alt_l r1 r2 w : matches r1 w -> matches (Alt r1 r2) w
| m_alt_r r1 r2 w : matches r2 w -> matches (Alt r1 r2) w.

(** The backtracking matcher: every way [r] matches a prefix of [s], as
    (matched prefix, rest), in the order the engine tries them. *)
Fixpoint run (r : regex) (s : str) : list (str * str) :=
  match r with
  | Lit c =>
      match s with
      | x :: s' => if char_eqb x c then [([x], s')] else []
      | [] => []
      end
  | Class cs =>
      match s with
      | x :: s' => if existsb (char_eqb x) cs then [([x], s')] else []
      | [] => []
      end
  | Dot =>
      match s with
      | x :: s' => if char_eqb x newline then [] else [([x], s')]
      | [] => []
      end
  | Seq r1 r2 =>
      flat_map (fun m1 => List.map (fun m2 => (fst m1 ++ fst m2, snd m2)) (run r2 (snd m1)))
               (run r1 s)
  | Alt r1 r2 => run r1 s ++ run r2 s
  end.

(** [re.match(r, s)]: the first way found, if any. *)
Definition match_ (r : regex) (s : str) : option str :=
  match run r s with
  | m :: _ => Some (fst m)
  | [] => None
  end.

(** [re.search(r, s)]: the match at the leftmost position that has one. *)
Fixpoint search (r : regex) (s : str) : option str :=
  match match_ r s with
  | Some m => Some m
  | None =>
      match s with
      | [] => None
      | _ :: s' => search r s'
      end
  end.

End Re.

(** ** pandas *)

Module Pd.

(** A row label: a position of a [RangeIndex], or the leading fields of a
    line that [read_csv] took as the index. *)
Inductive label :=
| Pos (n : nat)
| Key (k : list cell).

Definition label_eqb (a b : label) : bool :=
  match a, b with
  | Pos n, Pos m => Nat.eqb n m
  | Key k, Key k' =>
      (length k =? length k')%nat && forallb (fun p => cell_eqb (fst p) (snd p)) (combine k k')
  | _, _ => false
  end.

Fixpoint index_equals (a b : list label) : bool :=
  match a, b with
  | [], [] => true
  | x :: a', y :: b' => label_eqb x y && index_equals a' b'
  | _, _ => false
  end.

Record Series := mkSeries { s_index : list label; s_values : list cell }.

(** A frame: the row labels and the named columns, in column order. *)
Record DataFrame := mkFrame { df_index : list label; df_columns : list (string * list cell) }.

Definition RangeIndex (n : nat) : list label := List.map Pos (seq 0 n).

(** [len(df)] *)
Definition len (df : DataFrame) : nat := length (df_index df).

(** *** read_csv *)

(** A file on disk, after the tokenizer has split it: its non-blank lines,
    each the list of its tab-separated fields. *)
Definition file := list (list str).
Definition filesystem := string -> option file.

(** The fields read as missing (pandas' default [na_values]). *)
Definition na_values : list str :=
  [] :: List.map py
    ["#N/A"; "#N/A N/A"; "#NA"; "-1.#IND"; "-1.#QNAN"; "-NaN"; "-nan"; "1.#IND";
     "1.#QNAN"; "<NA>"; "N/A"; "NA"; "NULL"; "NaN"; "None"; "n/a"; "nan"; "null"]%string.

Definition to_cell (field : str) : cell :=
  if existsb (str_eqb field) na_values then NaN else Str field.

(** Missing trailing fields are closed as empty fields. *)
Definition pad (width : nat) (line : list str) : list str :=
  line ++ repeat [] (width - length line).

(** The data lines, against the field count [expected] of the line before:
    a line with more fields is a bad line and raises ([on_bad_lines='error']),
    a line with fewer is padded. *)
Fixpoint tokenize (expected : nat) (lines : list (list str)) : result (list (list str)) :=
  match lines with
  | [] => Ok []
  | line :: rest =>
      if (expected <? length line)%nat then Error ParserError
      else rows <- tokenize expected rest ;; Ok (pad expected line :: rows)
  end.

Definition column_at (rows : list (list str)) (j : nat) : list cell :=
  List.map (fun row => to_cell (nth j row [])) rows.

Fixpoint named_columns (rows : list (list str)) (j : nat) (names : list string)
  : list (string * list cell) :=
  match names with
  | [] => []
  | name :: names' => (name, column_at rows j) :: named_columns rows (S j) names'
  end.

(** [pd.read_csv(path, sep='\t', header=h, names=names)], C engine, read in
    one chunk.  Line [h] is the header line: it and the lines before it are
    skipped and [names] replace it.  The first data line is padded to the
    header line's field count and is never a bad line; it fixes the field
    count of every later line.  Fields in excess of [names] on the first data
    line become the index; [names] in excess of every line's fields raise. *)
Definition read_csv (fs : filesystem) (path : string) (header : nat) (names : list string)
  : result DataFrame :=
  match fs path with
  | None => Error FileNotFoundError
  | Some lines =>
      if (length lines <=? header)%nat then Error ParserError
      else
        let data := skipn (S header) lines in
        match data with
        | [] => Ok (mkFrame [] (named_columns [] 0 names))
        | first :: _ =>
            let width := Nat.max (length first) (length (nth header lines [])) in
            rows <- tokenize width data ;;
            let leading := (width - length names)%nat in
            let num_cols := fold_right Nat.max width (List.map (@length str) (firstn header lines)) in
            if (num_cols <? length names)%nat then Error ParserError
            else
              Ok (mkFrame
                    (if (leading =? 0)%nat then RangeIndex (length rows)
                     else List.map (fun row => Key (List.map to_cell (firstn leading row))) rows)
                    (named_columns rows leading names))
        end
  end.

(** *** Columns *)

Fixpoint lookup {A} (name : string) (cols : list (string * A)) : option A :=
  match cols with
  | [] => None
  | (n, c) :: cols' => if String.eqb n name then Some c else lookup name cols'
  end.

(** [df[name]] and [df.name] *)
Definition getitem (df : DataFrame) (name : string) : result Series :=
  match lookup name (df_columns df) with
  | Some c => Ok (mkSeries (df_index df) c)
  | None => Error KeyError
  end.

(** [s.values] *)
Definition values (s : Series) : list cell := s_values s.

Fixpoint has_duplicates (l : list label) : bool :=
  match l with
  | [] => false
  | x :: l' => existsb (label_eqb x) l' || has_duplicates l'
  end.

Fixpoint value_at (x : label) (idx : list label) (vals : list cell) : cell :=
  match idx, vals with
  | y :: idx', v :: vals' => if label_eqb x y then v else value_at x idx' vals'
  | _, _ => NaN
  end.

(** The values of [s] as a column of a frame indexed by [idx]: taken as they
    are when the indexes are equal, else re-indexed by label. *)
Definition reindex_for_setitem (idx : list label) (s : Series) : result (list cell) :=
  if index_equals (s_index s) idx || (length idx =? 0)%nat then Ok (s_values s)
  else if has_duplicates (s_index s) then Error ValueError_duplicate_axis
  else Ok (List.map (fun x => value_at x (s_index s) (s_values s)) idx).

Fixpoint set_column (name : string) (c : list cell) (cols : list (string * list cell))
  : list (string * list cell) :=
  match cols with
  | [] => [(name, c)]
  | (n, c') :: cols' =>
      if String.eqb n name then (n, c) :: cols' else (n, c') :: set_column name c cols'
  end.

(** A frame without rows takes the index of a non-empty value that is set
    into it; its columns are filled with the missing value. *)
Definition ensure_valid_index (df : DataFrame) (s : Series) : DataFrame :=
  if (length (df_index df) =? 0)%nat && negb (length (s_values s) =? 0)%nat
  then mkFrame (s_index s)
         (List.map (fun c => (fst c, repeat NaN (length (s_index s)))) (df_columns df))
  else df.

(** [df[name] = s]: replaces the column, or appends a new one. *)
Definition setitem (df : DataFrame) (name : string) (s : Series) : result DataFrame :=
  let df := ensure_valid_index df s in
  c <- reindex_for_setitem (df_index df) s ;;
  Ok (mkFrame (df_index df) (set_column name c (df_columns df))).

(** [df.drop(labels=names, axis=1)] *)
Definition drop (df : DataFrame) (names : list string) : result DataFrame :=
  if forallb (fun n => match lookup n (df_columns df) with Some _ => true | None => false end) names
  then Ok (mkFrame (df_index df)
             (filter (fun c => negb (existsb (String.eqb (fst c)) names)) (df_columns df)))
  else Error KeyError.

(** *** Rows *)

(** [s == v]: element-wise; the missing value equals nothing. *)
Definition cell_eq (v : str) (c : cell) : bool :=
  match c with
  | Str x => str_eqb x v
  | NaN => false
  end.

Definition series_eq (s : Series) (v : str) : list bool :=
  List.map (cell_eq v) (s_values s).

(** The entries of [l] at the positions where [mask] holds. *)
Fixpoint select {A} (mask : list bool) (l : list A) : list A :=
  match mask, l with
  | b :: mask', a :: l' => if b then a :: select mask' l' else select mask' l'
  | _, _ => []
  end.

(** [df[mask]], for a mask computed from a column of [df] itself. *)
Definition getitem_mask (df : DataFrame) (mask : list bool) : DataFrame :=
  mkFrame (select mask (df_index df))
          (List.map (fun c => (fst c, select mask (snd c))) (df_columns df)).

(** [df.reset_index(drop=True)] *)
Definition reset_index (df : DataFrame) : DataFrame :=
  mkFrame (RangeIndex (length (df_index df))) (df_columns df).

(** Row by row: no column is missing there. *)
Fixpoint notna_all (n : nat) (cols : list (list cell)) : list bool :=
  match cols with
  | [] => repeat true n
  | c :: cols' => List.map (fun p => notna (fst p) && snd p) (combine c (notna_all n cols'))
  end.

(** [df.dropna(axis=0)]: the rows with a missing value in any column go. *)
Definition dropna (df : DataFrame) : DataFrame :=
  getitem_mask df (notna_all (length (df_index df)) (List.map snd (df_columns df))).

(** *** Element-wise maps *)

(** [s.str.extract(pat)] for a pattern of one group: the group of the first
    match, or the missing value; a missing text stays missing. *)
Definition str_extract_cell (pat : Re.regex) (c : cell) : cell :=
  match c with
  | Str x => match Re.search pat x with Some m => Str m | None => NaN end
  | NaN => NaN
  end.

Definition str_extract (pat : Re.regex) (s : Series) : Series :=
  mkSeries (s_index s) (List.map (str_extract_cell pat) (s_values s)).

(** [s.map(f)] for a function [f]: called on every entry, the missing value
    included. *)
Definition map (f : cell -> result cell) (s : Series) : result Series :=
  vs <- mapM f (s_values s) ;; Ok (mkSeries (s_index s) vs).

(** [d.get(k)] for a dict literal [d] of distinct keys. *)
Fixpoint dict_get (d : list (str * str)) (k : str) : option str :=
  match d with
  | [] => None
  | (k', v) :: d' => if str_eqb k' k then Some v else dict_get d' k
  end.

(** [s.map(d)] for a dict [d]: an entry that is no key of [d] becomes the
    missing value; nothing is raised. *)
Definition map_dict_cell (d : list (str * str)) (c : cell) : cell :=
  match c with
  | Str x => match dict_get d x with Some v => Str v | None => NaN end
  | NaN => NaN
  end.

Definition map_dict (d : list (str * str)) (s : Series) : result Series :=
  Ok (mkSeries (s_index s) (List.map (map_dict_cell d) (s_values s))).

End Pd.

(** [lambda s: s[1]]: the second character of a text, as a text.  A text
    shorter than two raises [IndexError]; the missing value is a float and
    raises [TypeError]. *)
Definition item1 (c : cell) : result cell :=
  match c with
  | Str s => match nth_error s 1 with
             | Some x => Ok (Str [x])
             | None => Error IndexError
             end
  | NaN => Error TypeError
  end.

(** ** NumPy *)

Module Np.

Definition sum1 (v : list Z) : Z := fold_right Z.add 0%Z v.

(** [a.sum()] of a matrix *)
Definition sum (a : list (list Z)) : Z := sum1 (List.map sum1 a).

(** [a.sum(axis=1)] and [a.sum(axis=0)] *)
Definition sum_rows (a : list (list Z)) : list Z := List.map sum1 a.
Definition sum_cols (a : list (list Z)) : list Z :=
  List.map (fun j => sum1 (List.map (fun row => nth j row 0%Z) a)) (seq 0 (length (hd [] a))).

(** [a.diagonal()] *)
Definition diagonal (a : list (list Z)) : list Z :=
  List.map (fun i => nth i (nth i a []) 0%Z) (seq 0 (Nat.min (length a) (length (hd [] a)))).

Definition dot (u v : list Z) : Z := sum1 (List.map (fun p => (fst p * snd p)%Z) (combine u v)).

(** [a[:, :k]] *)
Definition columns_upto (k : nat) (a : list (list Z)) : list (list Z) := List.map (firstn k) a.

(** [x / y] on integers: true division.  The quotient is kept exact (the
    rounding to a float is not modelled); [None] stands for the [nan] or
    [inf] of a division by zero. *)
Definition true_divide (x y : Z) : option Q :=
  if (y =? 0)%Z then None else Some (inject_Z x / inject_Z y)%Q.

(** The array with [n] rows and columns whose cell [(i, j)] counts the
    entries [(i, j)] of [pairs]: [coo_matrix((ones, (rows, cols)), shape=(n, n)).toarray()]. *)
Definition count_pairs (n : nat) (pairs : list (nat * nat)) : list (list Z) :=
  List.map (fun i =>
    List.map (fun j =>
      Z.of_nat (length (filter (fun p => (fst p =? i)%nat && (snd p =? j)%nat) pairs)))
      (seq 0 n))
    (seq 0 n).

Fixpoint str_ltb (a b : str) : bool :=
  match a, b with
  | [], [] => false
  | [], _ :: _ => true
  | _ :: _, [] => false
  | x :: a', y :: b' => (x <? y)%N || ((x =? y)%N && str_ltb a' b')
  end.

Fixpoint insert_sorted (x : str) (l : list str) : list str :=
  match l with
  | [] => [x]
  | y :: l' =>
      if str_eqb x y then l
      else if str_ltb x y then x :: l
      else y :: insert_sorted x l'
  end.

(** [np.unique(v)]: the distinct texts of [v], sorted. *)
Definition unique (v : list str) : list str := fold_right insert_sorted [] v.

End Np.

(** ** scikit-learn *)

Module Sk.

Definition check_consistent_length (a b : list cell) : result unit :=
  if (length a =? length b)%nat then Ok tt else Error ValueError_inconsistent_samples.

Fixpoint texts (y : list cell) : option (list str) :=
  match y with
  | [] => Some []
  | Str s :: y' => option_map (cons s) (texts y')
  | NaN :: _ => None
  end.

(** [type_of_target]: a sequence of texts is a valid target.  One that
    starts with a missing value is an "unknown" target; a missing value
    further on cannot be compared with the texts when they are sorted. *)
Definition check_target (y : list cell) : result (list str) :=
  match y with
  | NaN :: _ => Error ValueError_unknown_target
  | _ => match texts y with
         | Some l => Ok l
         | None => Error TypeError
         end
  end.

Definition check_targets (y_true y_pred : list cell) : result (list str * list str) :=
  _ <- check_consistent_length y_true y_pred ;;
  yt <- check_target y_true ;;
  yp <- check_target y_pred ;;
  Ok (yt, yp).

(** [{y: x for x, y in enumerate(labels)}.get(v)], counting from [i]: of two
    equal labels the later one keeps the key. *)
Fixpoint label_to_ind (labels : list str) (i : nat) (v : str) : option nat :=
  match labels with
  | [] => None
  | l :: labels' =>
      match label_to_ind labels' (S i) v with
      | Some j => Some j
      | None => if str_eqb l v then Some i else None
      end
  end.

(** [label_to_ind.get(v, n_labels + 1)] *)
Definition ind (labels : list str) (v : str) : nat :=
  match label_to_ind labels 0 v with
  | Some j => j
  | None => length labels + 1
  end.

(** [confusion_matrix(y_true, y_pred, labels=labels)]: pairs with a label
    outside [labels] are eliminated, the others are counted by row (the
    label of [y_true]) and column (the label of [y_pred]). *)
Definition confusion_matrix (y_true y_pred : list cell) (labels : list str)
  : result (list (list Z)) :=
  ys <- check_targets y_true y_pred ;;
  let n_labels := length labels in
  if (n_labels =? 0)%nat then Error ValueError_no_labels
  else if (length (fst ys) =? 0)%nat then Ok (repeat (repeat 0%Z n_labels) n_labels)
  else if negb (existsb (fun y => existsb (str_eqb y) labels) (fst ys))
       then Error ValueError_label_not_in_y_true
  else
    let y_true := List.map (ind labels) (fst ys) in
    let y_pred := List.map (ind labels) (snd ys) in
    let kept := filter (fun p => (snd p <? n_labels)%nat && (fst p <? n_labels)%nat)
                       (combine y_true y_pred) in
    Ok (Np.count_pairs n_labels kept).

(** The value of [matthews_corrcoef]: [0.0], or
    [cov_ytyp / sqrt(cov_ytyt * cov_ypyp)], kept as the numerator and the
    product under the root. *)
Inductive mcc :=
| MccZero
| MccQuotient (cov_ytyp : Z) (cov_ytyt_ypyp : Z).

(** [matthews_corrcoef(y_true, y_pred)] *)
Definition matthews_corrcoef (y_true y_pred : list cell) : result mcc :=
  ys <- check_targets y_true y_pred ;;
  let classes := Np.unique (fst ys ++ snd ys) in
  let C := Np.count_pairs (length classes)
             (combine (List.map (ind classes) (fst ys)) (List.map (ind classes) (snd ys))) in
  let t_sum := Np.sum_rows C in
  let p_sum := Np.sum_cols C in
  let n_correct := Np.sum1 (Np.diagonal C) in
  let n_samples := Np.sum1 p_sum in
  let cov_ytyp := (n_correct * n_samples - Np.dot t_sum p_sum)%Z in
  let cov_ypyp := (n_samples * n_samples - Np.dot p_sum p_sum)%Z in
  let cov_ytyt := (n_samples * n_samples - Np.dot t_sum t_sum)%Z in
  Ok (if (cov_ypyp * cov_ytyt =? 0)%Z then MccZero
      else MccQuotient cov_ytyp (cov_ytyt * cov_ypyp)).

End Sk.

(** ** The notebook, cell by cell *)

(** The pattern [(\{[G]\}|\{[G].pl\})] for a set [G] of gender letters. *)
Definition gender_pattern (genders : str) : Re.regex :=
  Re.Alt
    (Re.Seq (Re.Lit (cp "{")) (Re.Seq (Re.Class genders) (Re.Lit (cp "}"))))
    (Re.Seq (Re.Lit (cp "{")) (Re.Seq (Re.Class genders) (Re.Seq Re.Dot
       (Re.Seq (Re.Lit (cp "p")) (Re.Seq (Re.Lit (cp "l")) (Re.Lit (cp "}"))))))).

(** [r'(\{[mfn]\}|\{[mfn].pl\})'] and [r'(\{[mf]\}|\{[mf].pl\})'] *)
Definition de_pattern : Re.regex := gender_pattern (py "mfn").
Definition fr_pattern : Re.regex := gender_pattern (py "mf").

Definition names : list string := ["de"; "fr"; "cat"; "comment"]%string.

Definition path : string := "../datasets/defr/defr.txt".

(** [defr = pd.read_csv('../datasets/defr/defr.txt', sep='\t', header=7, names=[...])] *)
Definition load (fs : Pd.filesystem) : result Pd.DataFrame :=
  Pd.read_csv fs path 7 names.

(** [defr = defr.drop(labels=['comment'], axis=1)] *)
Definition defr (loaded : Pd.DataFrame) : result Pd.DataFrame :=
  Pd.drop loaded ["comment"%string].

(** [nouns = defr[defr.cat == 'noun'].reset_index(drop=True)] *)
Definition nouns (defr : Pd.DataFrame) : result Pd.DataFrame :=
  cat <- Pd.getitem defr "cat" ;;
  Ok (Pd.reset_index (Pd.getitem_mask defr (Pd.series_eq cat (py "noun")))).

(** [nouns['de_gender'] = nouns.de.str.extract(...)] and the same for [fr] *)
Definition nouns_markers (nouns : Pd.DataFrame) : result Pd.DataFrame :=
  de <- Pd.getitem nouns "de" ;;
  nouns <- Pd.setitem nouns "de_gender" (Pd.str_extract de_pattern de) ;;
  fr <- Pd.getitem nouns "fr" ;;
  Pd.setitem nouns "fr_gender" (Pd.str_extract fr_pattern fr).

(** [nouns_gendered = nouns.dropna(axis=0).reset_index(drop=True)], then
    both gender columns mapped by [lambda s: s[1]] *)
Definition nouns_gendered (nouns : Pd.DataFrame) : result Pd.DataFrame :=
  let nouns_gendered := Pd.reset_index (Pd.dropna nouns) in
  de_gender <- Pd.getitem nouns_gendered "de_gender" ;;
  de_gender <- Pd.map item1 de_gender ;;
  nouns_gendered <- Pd.setitem nouns_gendered "de_gender" de_gender ;;
  fr_gender <- Pd.getitem nouns_gendered "fr_gender" ;;
  fr_gender <- Pd.map item1 fr_gender ;;
  Pd.setitem nouns_gendered "fr_gender" fr_gender.

(** [labels = ['m', 'f', 'n']] and [cm = confusion_matrix(de_gender, fr_gender, labels=labels)] *)
Definition labels : list str := [py "m"; py "f"; py "n"].

Definition cm (nouns_gendered : Pd.DataFrame) : result (list (list Z)) :=
  de_gender <- Pd.getitem nouns_gendered "de_gender" ;;
  fr_gender <- Pd.getitem nouns_gendered "fr_gender" ;;
  Sk.confusion_matrix (Pd.values de_gender) (Pd.values fr_gender) labels.

(** [{'f': 'f', 'm': 'm', 'n': 'm'}] *)
Definition grouping : list (str * str) :=
  [(py "f", py "f"); (py "m", py "m"); (py "n", py "m")].

(** [nouns_gendered['de_gender_grouped'] = nouns_gendered['de_gender'].map(grouping)] *)
Definition nouns_grouped (nouns_gendered : Pd.DataFrame) : result Pd.DataFrame :=
  de_gender <- Pd.getitem nouns_gendered "de_gender" ;;
  de_gender_grouped <- Pd.map_dict grouping de_gender ;;
  Pd.setitem nouns_gendered "de_gender_grouped" de_gender_grouped.

(** [labels = ['m', 'f']] and [cm2 = confusion_matrix(de_gender_grouped, fr_gender, labels=labels)] *)
Definition labels2 : list str := [py "m"; py "f"].

Definition cm2 (nouns_gendered : Pd.DataFrame) : result (list (list Z)) :=
  de_gender_grouped <- Pd.getitem nouns_gendered "de_gender_grouped" ;;
  fr_gender <- Pd.getitem nouns_gendered "fr_gender" ;;
  Sk.confusion_matrix (Pd.values de_gender_grouped) (Pd.values fr_gender) labels2.

(** [cm2.diagonal().sum() / cm2.sum()] *)
Definition agreement (cm2 : list (list Z)) : option Q :=
  Np.true_divide (Np.sum1 (Np.diagonal cm2)) (Np.sum cm2).

(** [matthews_corrcoef(nouns_gendered[a], nouns_gendered['fr_gender'])] for
    [a] one of [de_gender] and [de_gender_grouped]; the two print cells do
    not feed another cell, so their outcomes are kept as they are. *)
Definition phi (a : string) (nouns_gendered : Pd.DataFrame) : result Sk.mcc :=
  de <- Pd.getitem nouns_gendered a ;;
  fr_gender <- Pd.getitem nouns_gendered "fr_gender" ;;
  Sk.matthews_corrcoef (Pd.values de) (Pd.values fr_gender).

(** Every variable the notebook computes from the loaded table. *)
Record Notebook := mkNotebook {
  nb_defr : Pd.DataFrame;            (* without the comment column *)
  nb_nouns : Pd.DataFrame;           (* with the two marker columns *)
  nb_nouns_gendered : Pd.DataFrame;  (* with the grouped column *)
  nb_cm : list (list Z);
  nb_cm2 : list (list Z);
  nb_agreement : option Q;
  nb_phi : result Sk.mcc;
  nb_phi_grouped : result Sk.mcc
}.

Definition notebook (loaded : Pd.DataFrame) : result Notebook :=
  d <- defr loaded ;;
  n <- nouns d ;;
  n <- nouns_markers n ;;
  g <- nouns_gendered n ;;
  c <- cm g ;;
  g <- nouns_grouped g ;;
  c2 <- cm2 g ;;
  Ok (mkNotebook d n g c c2 (agreement c2) (phi "de_gender" g) (phi "de_gender_grouped" g)).

(** The numbers the notebook prints after the Extractor:
    [len(nouns)], [len(nouns_gendered)] and [len(nouns)-len(nouns_gendered)]
    (Python integers, so the difference is taken in [Z]). *)
Definition report (nouns nouns_gendered : Pd.DataFrame) : Z * Z * Z :=
  (Z.of_nat (Pd.len nouns), Z.of_nat (Pd.len nouns_gendered),
   (Z.of_nat (Pd.len nouns) - Z.of_nat (Pd.len nouns_gendered))%Z).

(** What [matthews_corrcoef] computes from the table [C] of counts it
    builds: [t_sum], [p_sum], [n_correct], [n_samples], the three covariances
    and the quotient. *)
Definition mcc_of_table (C : list (list Z)) : Sk.mcc :=
  let t_sum := Np.sum_rows C in
  let p_sum := Np.sum_cols C in
  let n_correct := Np.sum1 (Np.diagonal C) in
  let n_samples := Np.sum1 p_sum in
  let cov_ytyp := (n_correct * n_samples - Np.dot t_sum p_sum)%Z in
  let cov_ypyp := (n_samples * n_samples - Np.dot p_sum p_sum)%Z in
  let cov_ytyt := (n_samples * n_samples - Np.dot t_sum t_sum)%Z in
  if (cov_ypyp * cov_ytyt =? 0)%Z then Sk.MccZero
  else Sk.MccQuotient cov_ytyp (cov_ytyt * cov_ypyp).

(** ** The vocabulary of the statements *)

(** The column of a frame by name (empty when there is none). *)
Definition column (df : Pd.DataFrame) (name : string) : list cell :=
  match Pd.lookup name (Pd.df_columns df) with
  | Some c => c
  | None => []
  end.

(** A frame read row by row: its Records (source text, target text,
    category), and its GenderedNouns (source label, target label), the
    source label taken from the column [source]. *)
Definition records (df : Pd.DataFrame) : list (cell * cell * cell) :=
  combine (combine (column df "de") (column df "fr")) (column df "cat").

Definition gendered (source : string) (df : Pd.DataFrame) : list (cell * cell) :=
  combine (column df source) (column df "fr_gender").

(** The fields of a Record. *)
Definition r_de (r : cell * cell * cell) : cell := fst (fst r).
Definition r_fr (r : cell * cell * cell) : cell := snd (fst r).
Definition r_cat (r : cell * cell * cell) : cell := snd r.

(** A frame as the Loader returns it: the four named columns, each as long
    as the index. *)
Definition table (df : Pd.DataFrame) : Prop :=
  List.map fst (Pd.df_columns df) = names /\
  Forall (fun c => length (snd c) = length (Pd.df_index df)) (Pd.df_columns df).

(** The gender tags: the words [{g}] and [{g?pl}] for a gender letter [g] of
    [genders] and any character [?] but a newline. *)
Definition tag (genders : str) (w : str) : Prop :=
  exists g, In g genders /\
    (w = [cp "{"; g; cp "}"] \/
     exists x, x <> Re.newline /\ w = [cp "{"; g; x; cp "p"; cp "l"; cp "}"]).

(** [w] stands in [text] at position [i]. *)
Definition occurs_at (w text : str) (i : nat) : Prop :=
  exists before after, text = before ++ w ++ after /\ length before = i.

(** The category of the Record is ["noun"]. *)
Definition is_noun (r : cell * cell * cell) : bool := Pd.cell_eq (py "noun") (r_cat r).

(** What [str.extract] yields on the source and on the target text of a
    Record. *)
Definition marker_de (r : cell * cell * cell) : cell := Pd.str_extract_cell de_pattern (r_de r).
Definition marker_fr (r : cell * cell * cell) : cell := Pd.str_extract_cell fr_pattern (r_fr r).

(** Both fields of the Record yield a gender marker. *)
Definition both_marked (r : cell * cell * cell) : bool :=
  notna (marker_de r) && notna (marker_fr r).

(** Both labels of the pair are among the declared labels [ls]: the pair is
    counted by [confusion_matrix]. *)
Definition declared (ls : list str) (p : str * str) : bool :=
  existsb (str_eqb (snd p)) ls && existsb (str_eqb (fst p)) ls.

(** *** Sample data *)

(** A small dictionary table: four nouns with both markers, with the gender
    pairs (m, m), (f, f), (n, m), (m, f), a noun without a source marker and
    a verb. *)
Definition sample : Pd.DataFrame :=
  Pd.mkFrame (Pd.RangeIndex 6)
    [("de", List.map Str [py "Mann {m}"; py "Frau {f}"; py "foo"; py "Haus {n}";
                            py "gehen"; py "Mond {m}"]);
     ("fr", List.map Str [py "homme {m}"; py "femme {f}"; py "truc {m}"; py "toit {m}";
                            py "aller"; py "lune {f}"]);
     ("cat", List.map Str [py "noun"; py "noun"; py "noun"; py "noun"; py "verb"; py "noun"]);
     ("comment", [NaN; NaN; NaN; NaN; NaN; NaN])]%string.

(** A table of two nouns whose genders agree: (m, m) and (f, f). *)
Definition agreeing : Pd.DataFrame :=
  Pd.mkFrame (Pd.RangeIndex 2)
    [("de", List.map Str [py "Mann {m}"; py "Frau {f}"]);
     ("fr", List.map Str [py "homme {m}"; py "femme {f}"]);
     ("cat", List.map Str [py "noun"; py "noun"]);
     ("comment", [NaN; NaN])]%string.

(** Two files of eight skipped lines and two data lines: in one the second
    data line is short of a field, in the other it has one too many. *)
Definition preamble : Pd.file := repeat [py "# dict.cc"] 8.

Definition short_file : Pd.file :=
  preamble ++ [[py "Haus {n}"; py "maison {f}"; py "noun"; py "arch."];
               [py "Mann {m}"; py "homme {m}"; py "noun"]].

Definition wide_file : Pd.file :=
  preamble ++ [[py "Haus {n}"; py "maison {f}"; py "noun"; py "arch."];
               [py "Mann {m}"; py "homme {m}"; py "noun"; py "x"; py "y"]].

(** The file system that holds [f], if any, at the notebook's path. *)
Definition disk (f : option Pd.file) : Pd.filesystem :=
  fun p => if String.eqb p path then f else None.

(** ** The pipeline in closed form *)

(** The definitions below give every variable of the notebook as a function
    of the Records of the loaded table; the proofs show that the cells
    compute them. *)

(** The frame whose rows are [T], with further columns [more]. *)
Definition frame (idx : list Pd.label) (T : list (cell * cell * cell))
  (more : list (string * list cell)) : Pd.DataFrame :=
  Pd.mkFrame idx
    ([("de", List.map r_de T); ("fr", List.map r_fr T); ("cat", List.map r_cat T)]%string ++ more).

(** The gender letter of the marker of a text, when it has one. *)
Definition letter (pat : Re.regex) (text : cell) : cell :=
  match Pd.str_extract_cell pat text with
  | Str (_ :: g :: _) => Str [g]
  | _ => NaN
  end.

Definition markers (T : list (cell * cell * cell)) : list (string * list cell) :=
  [("de_gender", List.map marker_de T); ("fr_gender", List.map marker_fr T)]%string.

Definition letters (T : list (cell * cell * cell)) : list (string * list cell) :=
  [("de_gender", List.map (fun r => letter de_pattern (r_de r)) T);
   ("fr_gender", List.map (fun r => letter fr_pattern (r_fr r)) T)]%string.

Definition in_range (n : nat) (p : nat * nat) : Prop := fst p < n /\ snd p < n.

(** The pairs of positions that [confusion_matrix] counts: those with both
    labels in [labels]. *)
Definition kept (labels yt yp : list str) : list (nat * nat) :=
  filter (fun p => (snd p <? length labels)%nat && (fst p <? length labels)%nat)
         (combine (List.map (Sk.ind labels) yt) (List.map (Sk.ind labels) yp)).

Definition text_of (c : cell) : str :=
  match c with
  | Str s => s
  | NaN => []
  end.

Definition de_label (r : cell * cell * cell) : str := text_of (letter de_pattern (r_de r)).
Definition fr_label (r : cell * cell * cell) : str := text_of (letter fr_pattern (r_fr r)).
Definition group (x : str) : str := text_of (Pd.map_dict_cell grouping (Str x)).

Definition grouped_column (G : list (cell * cell * cell)) : list (string * list cell) :=
  [("de_gender_grouped"%string, List.map (fun r => Str (group (de_label r))) G)].

Definition labelled (G : list (cell * cell * cell)) : list (string * list cell) :=
  [("de_gender", List.map (fun r => Str (de_label r)) G);
   ("fr_gender", List.map (fun r => Str (fr_label r)) G)]%string.

(** The pairs of positions counted in [cm] and in [cm2]. *)
Definition cm_pairs (G : list (cell * cell * cell)) : list (nat * nat) :=
  List.map (fun r => (Sk.ind labels (de_label r), Sk.ind labels (fr_label r))) G.

Definition cm2_pairs (G : list (cell * cell * cell)) : list (nat * nat) :=
  List.map (fun r => (Sk.ind labels2 (group (de_label r)), Sk.ind labels2 (fr_label r))) G.

(** The number of ordered pairs of rows [(r, r')] of [G] in which the label
    [b] of [r'] is the label [a] of [r], and the correlation written with
    such numbers alone, free of any numbering of the classes. *)
Definition label_matches (a b : cell * cell * cell -> str) (G : list (cell * cell * cell)) : Z :=
  Np.sum1 (List.map (fun r => Z.of_nat (length (filter (fun r' => str_eqb (b r') (a r)) G))) G).

Definition mcc_labels (f g : cell * cell * cell -> str) (G : list (cell * cell * cell)) : Sk.mcc :=
  let n := Z.of_nat (length G) in
  let n_correct := Z.of_nat (length (filter (fun r => str_eqb (f r) (g r)) G)) in
  let cov_ytyp := (n_correct * n - label_matches f g G)%Z in
  let cov_ypyp := (n * n - label_matches g g G)%Z in
  let cov_ytyt := (n * n - label_matches f f G)%Z in
  if (cov_ypyp * cov_ytyt =? 0)%Z then Sk.MccZero
  else Sk.MccQuotient cov_ytyp (cov_ytyt * cov_ypyp).

(** The whole notebook on a table: every cell runs, and every variable is
    given by the Records [T] of the table. *)
Definition notebook_of (idx : list Pd.label) (T : list (cell * cell * cell)) : Notebook :=
  let N := filter is_noun T in
  let G := filter both_marked N in
  let g := frame (Pd.RangeIndex (length G)) G (labelled G ++ grouped_column G) in
  mkNotebook
    (frame idx T [])
    (frame (Pd.RangeIndex (length N)) N (markers N))
    g
    (Np.count_pairs 3 (cm_pairs G))
    (Np.count_pairs 2 (cm2_pairs G))
    (agreement (Np.count_pairs 2 (cm2_pairs G)))
    (phi "de_gender" g)
    (phi "de_gender_grouped" g).

(** * Proofs *)

(** Reads the fields of [notebook_of] without unfolding the frames. *)
Ltac notebook_fields :=
  unfold notebook_of; cbv zeta;
  cbn [nb_defr nb_nouns nb_nouns_gendered nb_cm nb_cm2 nb_agreement nb_phi nb_phi_grouped].

(** ** Equality tests and the error monad *)

Lemma str_eqb_eq (a b : str) : str_eqb a b = true <-> a = b.
Proof. unfold str_eqb. destruct (list_eq_dec N.eq_dec a b); split; congruence. Qed.

Lemma str_eqb_refl (a : str) : str_eqb a a = true.
Proof. now apply str_eqb_eq. Qed.

Lemma str_eqb_neq (a b : str) : str_eqb a b = false <-> a <> b.
Proof. unfold str_eqb. destruct (list_eq_dec N.eq_dec a b); split; congruence. Qed.

Lemma cell_eqb_refl (a : cell) : cell_eqb a a = true.
Proof. destruct a; simpl; auto using str_eqb_refl. Qed.

Lemma label_eqb_refl (a : Pd.label) : Pd.label_eqb a a = true.
Proof.
  destruct a as [n | k]; simpl.
  - apply Nat.eqb_refl.
  - rewrite Nat.eqb_refl. simpl. induction k; simpl; auto.
    rewrite cell_eqb_refl. auto.
Qed.

Lemma index_equals_refl (idx : list Pd.label) : Pd.index_equals idx idx = true.
Proof. induction idx; simpl; auto. rewrite label_eqb_refl. auto. Qed.

Lemma bind_Ok {A B} (r : result A) (k : A -> result B) (b : B) :
  bind r k = Ok b -> exists a, r = Ok a /\ k a = Ok b.
Proof. destruct r; simpl; intros H; [eauto | discriminate]. Qed.

Lemma bind_ret {A B} (a : A) (k : A -> result B) : bind (Ok a) k = k a.
Proof. reflexivity. Qed.

Lemma mapM_pointwise {A B C} (f : B -> result C) (g : A -> B) (h : A -> C) (l : list A) :
  (forall a, In a l -> f (g a) = Ok (h a)) ->
  mapM f (List.map g l) = Ok (List.map h l).
Proof.
  induction l as [| a l IH]; intros H; simpl; auto.
  rewrite (H a (or_introl eq_refl)). simpl.
  rewrite IH by (intros; apply H; now right). reflexivity.
Qed.

(** ** The matcher against the words of a pattern *)

Lemma run_sound (r : Re.regex) :
  forall s m rest, In (m, rest) (Re.run r s) -> s = m ++ rest /\ Re.matches r m.
Proof.
  induction r as [c | cs | | r1 IH1 r2 IH2 | r1 IH1 r2 IH2]; intros s m rest Hin; simpl in Hin.
  - destruct s as [| x s']; [contradiction |].
    destruct (char_eqb x c) eqn:E; [| contradiction].
    destruct Hin as [Heq | []]. inversion Heq; subst.
    apply N.eqb_eq in E. subst. split; [reflexivity | constructor].
  - destruct s as [| x s']; [contradiction |].
    destruct (existsb (char_eqb x) cs) eqn:E; [| contradiction].
    destruct Hin as [Heq | []]. inversion Heq; subst.
    apply existsb_exists in E. destruct E as [y [Hy Hxy]].
    apply N.eqb_eq in Hxy. subst. split; [reflexivity | now constructor].
  - destruct s as [| x s']; [contradiction |].
    destruct (char_eqb x Re.newline) eqn:E; [contradiction |].
    destruct Hin as [Heq | []]. inversion Heq; subst.
    apply N.eqb_neq in E. split; [reflexivity | now constructor].
  - apply in_flat_map in Hin. destruct Hin as [[m1 s1] [H1 H2]].
    apply in_map_iff in H2. destruct H2 as [[m2 s2] [Heq H2]].
    simpl in *. inversion Heq; subst.
    apply IH1 in H1. apply IH2 in H2. destruct H1 as [-> M1], H2 as [-> M2].
    split; [now rewrite app_assoc | now constructor].
  - apply in_app_or in Hin. destruct Hin as [H | H].
    + apply IH1 in H. destruct H. split; [assumption | now apply Re.m_alt_l].
    + apply IH2 in H. destruct H. split; [assumption | now apply Re.m_alt_r].
Qed.

Lemma run_complete (r : Re.regex) (m : str) :
  Re.matches r m -> forall rest, In (m, rest) (Re.run r (m ++ rest)).
Proof.
  induction 1 as [c | cs c Hc | c Hc | r1 r2 w1 w2 _ IH1 _ IH2 | r1 r2 w _ IH | r1 r2 w _ IH];
    intros rest; simpl.
  - unfold char_eqb. rewrite N.eqb_refl. now left.
  - replace (existsb (char_eqb c) cs) with true; [now left |].
    symmetry. apply existsb_exists. exists c. split; [assumption | apply N.eqb_refl].
  - unfold char_eqb. destruct (N.eqb_spec c Re.newline); [contradiction | now left].
  - apply in_flat_map. exists (w1, w2 ++ rest). split.
    + rewrite <- app_assoc. apply IH1.
    + apply in_map_iff. exists (w2, rest). simpl. split; [reflexivity | apply IH2].
  - apply in_or_app. left. apply IH.
  - apply in_or_app. right. apply IH.
Qed.

Lemma match_Some (r : Re.regex) (s m : str) :
  Re.match_ r s = Some m -> exists rest, s = m ++ rest /\ Re.matches r m.
Proof.
  unfold Re.match_. destruct (Re.run r s) as [| [m' rest] l] eqn:E; [discriminate |].
  intros H. inversion H; subst. simpl. exists rest.
  apply run_sound. rewrite E. now left.
Qed.

Lemma match_None (r : Re.regex) (s : str) :
  Re.match_ r s = None <-> (forall m rest, s = m ++ rest -> ~ Re.matches r m).
Proof.
  unfold Re.match_. split.
  - destruct (Re.run r s) eqn:E; [| discriminate].
    intros _ m rest -> M. pose proof (run_complete M rest) as Hin.
    rewrite E in Hin. destruct Hin.
  - intros H. destruct (Re.run r s) as [| [m rest] l] eqn:E; [reflexivity |].
    exfalso. destruct (@run_sound r s m rest) as [Hs M]; [rewrite E; now left |].
    exact (H m rest Hs M).
Qed.

Lemma occurs_at_tail (w : str) (x : char) (s : str) (i : nat) :
  occurs_at w (x :: s) (S i) <-> occurs_at w s i.
Proof.
  unfold occurs_at. split.
  - intros [b [a [H L]]]. destruct b as [| y b]; [discriminate |].
    simpl in *. inversion H; subst. exists b, a. split; [reflexivity | lia].
  - intros [b [a [H L]]]. exists (x :: b), a. simpl. subst. split; [reflexivity | reflexivity].
Qed.

Lemma occurs_at_0 (w s : str) : occurs_at w s 0 <-> exists rest, s = w ++ rest.
Proof.
  unfold occurs_at. split.
  - intros [b [a [H L]]]. destruct b; [| discriminate]. exists a. assumption.
  - intros [rest H]. exists [], rest. split; [assumption | reflexivity].
Qed.

(** [search] finds nothing exactly when no word of the pattern stands
    anywhere in the text. *)
Lemma search_None (r : Re.regex) (s : str) :
  Re.search r s = None <-> (forall w i, occurs_at w s i -> ~ Re.matches r w).
Proof.
  induction s as [| x s IH]; simpl.
  - destruct (Re.match_ r []) as [w0 |] eqn:E.
    + split; [discriminate |]. intros H. exfalso.
      apply match_Some in E. destruct E as [rest [Hs M]].
      apply (H w0 0); [apply occurs_at_0; eauto | assumption].
    + split; [| reflexivity]. intros _ w i [b [a [H L]]] M.
      destruct b; [| discriminate]. simpl in H.
      rewrite match_None in E. exact (E w a H M).
  - destruct (Re.match_ r (x :: s)) as [w0 |] eqn:E.
    + split; [discriminate |]. intros H. exfalso.
      apply match_Some in E. destruct E as [rest [Hs M]].
      apply (H w0 0); [apply occurs_at_0; eauto | assumption].
    + rewrite IH. rewrite match_None in E. split.
      * intros H w i Hi M. destruct i.
        -- apply occurs_at_0 in Hi. destruct Hi as [rest Hs]. exact (E w rest Hs M).
        -- apply occurs_at_tail in Hi. exact (H w i Hi M).
      * intros H w i Hi. apply (H w (S i)). now apply occurs_at_tail.
Qed.

(** What [search] finds is a word of the pattern that stands in the text,
    and no word of the pattern stands further left. *)
Lemma search_Some (r : Re.regex) (s w : str) :
  Re.search r s = Some w ->
  exists i, occurs_at w s i /\ Re.matches r w /\
            (forall w' j, occurs_at w' s j -> Re.matches r w' -> i <= j).
Proof.
  induction s as [| x s IH]; simpl.
  - destruct (Re.match_ r []) eqn:E; [| discriminate].
    intros H. inversion H; subst. apply match_Some in E. destruct E as [rest [Hs M]].
    exists 0. split; [apply occurs_at_0; eauto |]. split; [assumption | intros; lia].
  - destruct (Re.match_ r (x :: s)) eqn:E.
    + intros H. inversion H; subst. apply match_Some in E. destruct E as [rest [Hs M]].
      exists 0. split; [apply occurs_at_0; eauto |]. split; [assumption | intros; lia].
    + intros H. destruct (IH H) as [i [Hi [M Hleft]]].
      exists (S i). split; [now apply occurs_at_tail |]. split; [assumption |].
      intros w' j Hj M'. destruct j.
      * exfalso. apply occurs_at_0 in Hj. destruct Hj as [rest Hs].
        rewrite match_None in E. exact (E w' rest Hs M').
      * apply occurs_at_tail in Hj. specialize (Hleft w' j Hj M'). lia.
Qed.

(** The words of the notebook's patterns are the gender tags. *)
Lemma gender_pattern_tag (genders w : str) :
  Re.matches (gender_pattern genders) w <-> tag genders w.
Proof.
  unfold gender_pattern, tag. split.
  - intros M. inversion M as [| | | | ? ? ? M1 | ? ? ? M1]; subst; clear M.
    + inversion M1 as [| | | ? ? ? ? Ma Mb | |]; subst; clear M1.
      inversion Ma; subst; clear Ma.
      inversion Mb as [| | | ? ? ? ? Mc Md | |]; subst; clear Mb.
      inversion Mc; subst; clear Mc. inversion Md; subst; clear Md.
      eexists. split; [eassumption | left; reflexivity].
    + inversion M1 as [| | | ? ? ? ? Ma Mb | |]; subst; clear M1.
      inversion Ma; subst; clear Ma.
      inversion Mb as [| | | ? ? ? ? Mc Md | |]; subst; clear Mb.
      inversion Mc; subst; clear Mc.
      inversion Md as [| | | ? ? ? ? Me Mf | |]; subst; clear Md.
      inversion Me; subst; clear Me.
      inversion Mf as [| | | ? ? ? ? Mg Mh | |]; subst; clear Mf.
      inversion Mg; subst; clear Mg.
      inversion Mh as [| | | ? ? ? ? Mi Mj | |]; subst; clear Mh.
      inversion Mi; subst; clear Mi. inversion Mj; subst; clear Mj.
      eexists. split; [eassumption |]. right. eexists. split; [eassumption | reflexivity].
  - intros [g [Hg [-> | [x [Hx ->]]]]].
    + apply Re.m_alt_l.
      apply (Re.m_seq (Re.m_lit _) (Re.m_seq (Re.m_class _ _ Hg) (Re.m_lit _))).
    + apply Re.m_alt_r.
      apply (Re.m_seq (Re.m_lit _) (Re.m_seq (Re.m_class _ _ Hg)
              (Re.m_seq (Re.m_dot Hx) (Re.m_seq (Re.m_lit _) (Re.m_seq (Re.m_lit _) (Re.m_lit _)))))).
Qed.

(** The marker a gender pattern finds starts with the brace and the gender
    letter, so [s[1]] is that letter. *)
Lemma tag_letter (genders w : str) :
  tag genders w -> exists g rest, w = cp "{" :: g :: rest /\ In g genders.
Proof.
  intros [g [Hg [-> | [x [_ ->]]]]]; eauto.
Qed.

(** ** Lists: masks, filters and parallel columns *)

Lemma select_map {A B} (p : A -> bool) (f : A -> B) (l : list A) :
  Pd.select (List.map p l) (List.map f l) = List.map f (filter p l).
Proof.
  induction l as [| a l IH]; simpl; auto.
  destruct (p a); simpl; now rewrite IH.
Qed.

Lemma select_length {A B} (p : A -> bool) (l : list A) (idx : list B) :
  length idx = length l ->
  length (Pd.select (List.map p l) idx) = length (filter p l).
Proof.
  revert idx. induction l as [| a l IH]; intros [| i idx] H; simpl in *; try discriminate; auto.
  destruct (p a); simpl; rewrite IH by lia; reflexivity.
Qed.

Lemma combine_map {A B C} (f : A -> B) (g : A -> C) (l : list A) :
  combine (List.map f l) (List.map g l) = List.map (fun a => (f a, g a)) l.
Proof. induction l; simpl; congruence. Qed.

Lemma repeat_map {A B} (b : B) (l : list A) :
  repeat b (length l) = List.map (fun _ => b) l.
Proof. induction l; simpl; congruence. Qed.

Lemma notna_all_map {A} (fs : list (A -> cell)) (l : list A) :
  Pd.notna_all (length l) (List.map (fun f => List.map f l) fs)
  = List.map (fun a => forallb (fun f => notna (f a)) fs) l.
Proof.
  induction fs as [| f fs IH]; simpl.
  - apply repeat_map.
  - rewrite IH, combine_map, map_map. reflexivity.
Qed.

(** ** Frames of Records *)

Lemma records_frame idx T more : records (frame idx T more) = T.
Proof.
  unfold records, frame, column. simpl.
  rewrite combine_map, combine_map.
  rewrite <- (map_id T) at 2. apply map_ext. intros [[a b] c]. reflexivity.
Qed.

Lemma combine3_fields (c1 c2 c3 : list cell) :
  length c1 = length c2 -> length c2 = length c3 ->
  List.map r_de (combine (combine c1 c2) c3) = c1 /\
  List.map r_fr (combine (combine c1 c2) c3) = c2 /\
  List.map r_cat (combine (combine c1 c2) c3) = c3 /\
  length (combine (combine c1 c2) c3) = length c1.
Proof.
  revert c2 c3. induction c1 as [| a c1 IH]; intros [| b c2] [| c c3] H1 H2;
    simpl in *; try discriminate; auto.
  destruct (IH c2 c3) as [E1 [E2 [E3 E4]]]; try lia.
  unfold r_de, r_fr, r_cat in *. simpl. rewrite E1, E2, E3, E4. auto.
Qed.

Lemma table_frame (df : Pd.DataFrame) :
  table df ->
  exists T K, df = frame (Pd.df_index df) T [("comment"%string, K)] /\
              length T = length (Pd.df_index df).
Proof.
  destruct df as [idx cols]. unfold table, names. simpl. intros [Hn Hl].
  destruct cols as [| [n1 c1] [| [n2 c2] [| [n3 c3] [| [n4 c4] [| ? ?]]]]]; try discriminate.
  simpl in Hn. inversion Hn; subst.
  inversion Hl as [| ? ? L1 Hl1]; subst. inversion Hl1 as [| ? ? L2 Hl2]; subst.
  inversion Hl2 as [| ? ? L3 Hl3]; subst. simpl in *.
  destruct (@combine3_fields c1 c2 c3) as [E1 [E2 [E3 E4]]]; try lia.
  exists (combine (combine c1 c2) c3), c4. split.
  - unfold frame. simpl. rewrite E1, E2, E3. reflexivity.
  - lia.
Qed.

(** ** The notebook on a table of Records *)

Lemma defr_frame idx T K :
  defr (frame idx T [("comment"%string, K)]) = Ok (frame idx T []).
Proof. reflexivity. Qed.

Lemma nouns_frame idx T :
  length T = length idx ->
  nouns (frame idx T []) =
  Ok (frame (Pd.RangeIndex (length (filter is_noun T))) (filter is_noun T) []).
Proof.
  intros L. unfold nouns, frame, Pd.getitem, Pd.getitem_mask, Pd.reset_index, Pd.series_eq.
  simpl. rewrite map_map.
  change (fun x : cell * cell * cell => Pd.cell_eq (py "noun") (r_cat x)) with is_noun.
  rewrite !select_map. rewrite select_length by (symmetry; exact L). reflexivity.
Qed.

Lemma ensure_valid_index_same (df : Pd.DataFrame) (s : Pd.Series) :
  length (Pd.s_values s) = length (Pd.df_index df) -> Pd.ensure_valid_index df s = df.
Proof.
  intros L. unfold Pd.ensure_valid_index. rewrite L.
  now destruct (length (Pd.df_index df) =? 0)%nat.
Qed.

(** Setting a column computed from the frame's own rows. *)
Lemma setitem_own (idx : list Pd.label) (cols : list (string * list cell)) (name : string)
  (c : list cell) :
  length c = length idx ->
  Pd.setitem (Pd.mkFrame idx cols) name (Pd.mkSeries idx c)
  = Ok (Pd.mkFrame idx (Pd.set_column name c cols)).
Proof.
  intros L. unfold Pd.setitem. rewrite ensure_valid_index_same by exact L.
  unfold Pd.reindex_for_setitem. simpl. now rewrite index_equals_refl.
Qed.

Lemma nouns_markers_frame idx T :
  length T = length idx ->
  nouns_markers (frame idx T []) = Ok (frame idx T (markers T)).
Proof.
  intros L. unfold nouns_markers, frame, markers, Pd.getitem, Pd.str_extract.
  simpl. rewrite setitem_own by (now rewrite !length_map).
  simpl. rewrite setitem_own by (now rewrite !length_map).
  simpl. rewrite !map_map. reflexivity.
Qed.

(** A marker found by a gender pattern is a tag, and [s[1]] of it is its
    gender letter. *)
Lemma marker_tag (genders : str) (c : cell) (m : str) :
  Pd.str_extract_cell (gender_pattern genders) c = Str m ->
  exists text i, c = Str text /\ occurs_at m text i /\ tag genders m /\
    (forall w j, occurs_at w text j -> tag genders w -> i <= j).
Proof.
  destruct c as [| text]; simpl; [discriminate |].
  destruct (Re.search (gender_pattern genders) text) as [w |] eqn:E; [| discriminate].
  intros H. inversion H; subst. apply search_Some in E. destruct E as [i [Hi [M Hleft]]].
  exists text, i. split; [reflexivity |]. split; [assumption |].
  split; [now apply gender_pattern_tag |].
  intros w j Hj Hw. apply (Hleft w j Hj). now apply gender_pattern_tag.
Qed.

Lemma item1_marker (genders : str) (c : cell) :
  notna (Pd.str_extract_cell (gender_pattern genders) c) = true ->
  exists g, In g genders /\
    letter (gender_pattern genders) c = Str [g] /\
    item1 (Pd.str_extract_cell (gender_pattern genders) c) = Ok (Str [g]).
Proof.
  unfold letter.
  destruct (Pd.str_extract_cell (gender_pattern genders) c) as [| m] eqn:E; [discriminate |].
  intros _. apply marker_tag in E. destruct E as [text [i [_ [_ [Ht _]]]]].
  apply tag_letter in Ht. destruct Ht as [g [rest [-> Hg]]].
  exists g. simpl. auto.
Qed.

Lemma marker_notna_text (pat : Re.regex) (c : cell) :
  notna (Pd.str_extract_cell pat c) = true -> notna c = true.
Proof. destruct c; simpl; auto. Qed.

Lemma filter_all {A} (p : A -> bool) (l : list A) :
  (forall a, In a l -> p a = true) -> filter p l = l.
Proof.
  induction l as [| a l IH]; intros H; simpl; auto.
  rewrite (H a (or_introl eq_refl)). f_equal. apply IH. intros; apply H; now right.
Qed.

Lemma nouns_gendered_frame idx T :
  length T = length idx ->
  (forall r, In r T -> is_noun r = true) ->
  nouns_gendered (frame idx T (markers T)) =
  Ok (frame (Pd.RangeIndex (length (filter both_marked T))) (filter both_marked T)
            (letters (filter both_marked T))).
Proof.
  intros L Hnoun.
  assert (Hdrop : Pd.dropna (frame idx T (markers T)) =
                  frame (Pd.select (List.map both_marked T) idx) (filter both_marked T)
                        (markers (filter both_marked T))).
  { unfold Pd.dropna, Pd.getitem_mask, frame, markers. simpl Pd.df_index. simpl Pd.df_columns.
    rewrite <- L.
    change (List.map snd _) with
      (List.map (fun f => List.map f T) [r_de; r_fr; r_cat; marker_de; marker_fr]).
    rewrite notna_all_map.
    rewrite (@map_ext_in _ _ _ both_marked).
    - simpl. rewrite !select_map. reflexivity.
    - intros r Hr. unfold both_marked. simpl.
      destruct (notna (marker_de r)) eqn:E1; [| now rewrite !andb_false_r].
      destruct (notna (marker_fr r)) eqn:E2; [| now rewrite !andb_false_r].
      rewrite (marker_notna_text _ _ E1), (marker_notna_text _ _ E2).
      specialize (Hnoun r Hr). unfold is_noun, Pd.cell_eq in Hnoun.
      destruct (r_cat r); [discriminate | reflexivity]. }
  unfold nouns_gendered. rewrite Hdrop.
  unfold frame, markers, letters, Pd.reset_index, Pd.getitem, Pd.map.
  simpl Pd.df_index. simpl Pd.df_columns. simpl Pd.lookup. cbv iota beta. simpl bind at 1.
  rewrite (@select_length _ _ both_marked T idx) by (symmetry; exact L).
  set (G := filter both_marked T).
  assert (LG : forall f : cell * cell * cell -> cell,
             length (List.map f G) = length (Pd.RangeIndex (length G))).
  { intros f. unfold Pd.RangeIndex. now rewrite !length_map, length_seq. }
  assert (HG : forall r, In r G -> both_marked r = true).
  { intros r Hr. apply filter_In in Hr. tauto. }
  rewrite (@mapM_pointwise _ _ _ item1 marker_de (fun r => letter de_pattern (r_de r))).
  2:{ intros r Hr. specialize (HG r Hr). unfold both_marked in HG.
      apply andb_prop in HG. destruct HG as [H1 _].
      destruct (item1_marker _ _ H1) as [g [_ [E1 E2]]].
      unfold marker_de, de_pattern in *. rewrite E1. exact E2. }
  simpl. rewrite setitem_own by apply LG. simpl.
  rewrite (@mapM_pointwise _ _ _ item1 marker_fr (fun r => letter fr_pattern (r_fr r))).
  2:{ intros r Hr. specialize (HG r Hr). unfold both_marked in HG.
      apply andb_prop in HG. destruct HG as [_ H2].
      destruct (item1_marker _ _ H2) as [g [_ [E1 E2]]].
      unfold marker_fr, fr_pattern in *. rewrite E1. exact E2. }
  simpl. rewrite setitem_own by apply LG. reflexivity.
Qed.

(** ** Counting pairs *)

Lemma sum1_map_add {A} (f g : A -> Z) (l : list A) :
  Np.sum1 (List.map (fun a => (f a + g a)%Z) l)
  = (Np.sum1 (List.map f l) + Np.sum1 (List.map g l))%Z.
Proof. induction l; simpl; lia. Qed.

Lemma sum1_indicator (k s n : nat) :
  Np.sum1 (List.map (fun i => if (k =? i)%nat then 1%Z else 0%Z) (seq s n))
  = if ((s <=? k) && (k <? s + n))%nat then 1%Z else 0%Z.
Proof.
  revert s. induction n as [| n IH]; intros s; simpl.
  - destruct (Nat.leb_spec s k), (Nat.ltb_spec k (s + 0)); simpl; auto; lia.
  - rewrite IH.
    destruct (Nat.eqb_spec k s), (Nat.leb_spec (S s) k), (Nat.ltb_spec k (S s + n)),
      (Nat.leb_spec s k), (Nat.ltb_spec k (s + S n)); simpl; lia.
Qed.

(** Entries sorted into [n] bins by a key below [n]: the bins hold them all. *)
Lemma sum1_bins {A} (key : A -> nat) (n : nat) (l : list A) :
  (forall a, In a l -> key a < n) ->
  Np.sum1 (List.map (fun i => Z.of_nat (length (filter (fun a => (key a =? i)%nat) l))) (seq 0 n))
  = Z.of_nat (length l).
Proof.
  induction l as [| a l IH]; intros H.
  - simpl. induction (seq 0 n); simpl; auto.
  - rewrite (@map_ext _ _ _
      (fun i => ((if (key a =? i)%nat then 1 else 0)
                 + Z.of_nat (length (filter (fun x => (key x =? i)%nat) l)))%Z)).
    + rewrite sum1_map_add, sum1_indicator, IH by (intros; apply H; now right).
      specialize (H a (or_introl eq_refl)).
      change (0 <=? key a)%nat with true. change (0 + n) with n.
      destruct (Nat.ltb_spec (key a) n); [| lia].
      simpl andb. cbv iota. simpl length. lia.
    + intros i. simpl. destruct (key a =? i)%nat; simpl length; lia.
Qed.

Lemma filter_filter_length {A} (p q : A -> bool) (l : list A) :
  length (filter (fun a => p a && q a) l) = length (filter q (filter p l)).
Proof.
  induction l as [| a l IH]; simpl; auto.
  destruct (p a); simpl; [destruct (q a); simpl; now rewrite IH | assumption].
Qed.

Lemma filter_length_le {A} (p : A -> bool) (l : list A) : length (filter p l) <= length l.
Proof. induction l; simpl; [lia | destruct (p a); simpl; lia]. Qed.

Lemma filter_length_all {A} (p : A -> bool) (l : list A) :
  length (filter p l) = length l <-> (forall a, In a l -> p a = true).
Proof.
  induction l as [| a l IH]; simpl.
  - split; [intros _ ? [] | reflexivity].
  - pose proof (filter_length_le p l). destruct (p a) eqn:E; simpl.
    + split.
      * intros H' x [-> | Hx]; [assumption |]. apply IH; [lia | assumption].
      * intros H'. f_equal. apply IH. intros; apply H'; now right.
    + split; [lia |]. intros H'. rewrite (H' a (or_introl eq_refl)) in E. discriminate.
Qed.

Lemma count_pairs_sum (n : nat) (pairs : list (nat * nat)) :
  (forall p, In p pairs -> in_range n p) ->
  Np.sum (Np.count_pairs n pairs) = Z.of_nat (length pairs).
Proof.
  intros H. unfold Np.sum, Np.count_pairs. rewrite map_map.
  rewrite <- (@sum1_bins _ fst n pairs) by (intros p Hp; apply (H p Hp)).
  f_equal. apply map_ext. intros i.
  rewrite (@map_ext _ _ _ (fun j => Z.of_nat (length
             (filter (fun p => (snd p =? j)%nat) (filter (fun p => (fst p =? i)%nat) pairs))))).
  - apply sum1_bins. intros p Hp. apply filter_In in Hp. apply (H p (proj1 Hp)).
  - intros j. now rewrite filter_filter_length.
Qed.

Lemma count_pairs_nonneg (n : nat) (pairs : list (nat * nat)) :
  Forall (Forall (fun c => (0 <= c)%Z)) (Np.count_pairs n pairs).
Proof.
  unfold Np.count_pairs. apply Forall_forall. intros row Hrow.
  apply in_map_iff in Hrow. destruct Hrow as [i [<- _]].
  apply Forall_forall. intros c Hc. apply in_map_iff in Hc. destruct Hc as [j [<- _]]. lia.
Qed.

Lemma map_const_seq {B} (b : B) (n s : nat) :
  List.map (fun _ : nat => b) (seq s n) = repeat b n.
Proof. revert s. induction n as [| n IH]; intros s; simpl; [reflexivity | now rewrite IH]. Qed.

Lemma count_pairs_nil (n : nat) : Np.count_pairs n [] = repeat (repeat 0%Z n) n.
Proof.
  unfold Np.count_pairs. simpl. now rewrite !map_const_seq.
Qed.

Lemma count_pairs_cell (n : nat) (pairs : list (nat * nat)) (i j : nat) :
  i < n -> j < n ->
  nth j (nth i (Np.count_pairs n pairs) []) 0%Z
  = Z.of_nat (length (filter (fun p => (fst p =? i)%nat && (snd p =? j)%nat) pairs)).
Proof.
  intros Hi Hj. unfold Np.count_pairs.
  rewrite (@nth_indep _ _ i [] (List.map (fun j => Z.of_nat (length
     (filter (fun p => (fst p =? 0)%nat && (snd p =? j)%nat) pairs))) (seq 0 n)))
    by (rewrite length_map, length_seq; exact Hi).
  rewrite (map_nth (fun i => List.map (fun j => Z.of_nat (length
     (filter (fun p => (fst p =? i)%nat && (snd p =? j)%nat) pairs))) (seq 0 n)) (seq 0 n) 0 i).
  rewrite seq_nth by exact Hi. simpl.
  rewrite (@nth_indep _ _ j 0%Z (Z.of_nat (length
     (filter (fun p => (fst p =? i)%nat && (snd p =? 0)%nat) pairs))))
    by (rewrite length_map, length_seq; exact Hj).
  rewrite (map_nth (fun j => Z.of_nat (length
     (filter (fun p => (fst p =? i)%nat && (snd p =? j)%nat) pairs))) (seq 0 n) 0 j).
  rewrite seq_nth by exact Hj. reflexivity.
Qed.

Lemma count_pairs_shape (n : nat) (pairs : list (nat * nat)) :
  length (Np.count_pairs n pairs) = n /\ length (hd [] (Np.count_pairs n pairs)) = n.
Proof.
  unfold Np.count_pairs. rewrite length_map, length_seq. split; [reflexivity |].
  destruct n; simpl; [reflexivity |]. now rewrite length_map, length_seq.
Qed.

(** The diagonal holds the pairs whose two entries agree. *)
Lemma count_pairs_diagonal (n : nat) (pairs : list (nat * nat)) :
  (forall p, In p pairs -> in_range n p) ->
  Np.sum1 (Np.diagonal (Np.count_pairs n pairs))
  = Z.of_nat (length (filter (fun p => (fst p =? snd p)%nat) pairs)).
Proof.
  intros H. unfold Np.diagonal.
  destruct (count_pairs_shape n pairs) as [-> ->]. rewrite Nat.min_id.
  rewrite <- (@sum1_bins _ fst n (filter (fun p => (fst p =? snd p)%nat) pairs)).
  - f_equal. apply map_ext_in. intros i Hi. apply in_seq in Hi.
    rewrite count_pairs_cell by lia. f_equal.
    rewrite <- filter_filter_length. f_equal. apply filter_ext. intros [a b]. simpl.
    destruct (Nat.eqb_spec a b), (Nat.eqb_spec a i), (Nat.eqb_spec b i); simpl; auto; lia.
  - intros p Hp. apply filter_In in Hp. apply (H p (proj1 Hp)).
Qed.

(** ** Labels and their positions *)

Lemma label_to_ind_Some (labels : list str) (v : str) :
  forall i j, Sk.label_to_ind labels i v = Some j ->
              i <= j < i + length labels /\ nth_error labels (j - i) = Some v.
Proof.
  induction labels as [| l labels IH]; intros i j; simpl; [discriminate |].
  destruct (Sk.label_to_ind labels (S i) v) as [k |] eqn:E.
  - intros H. inversion H; subst. apply IH in E. destruct E as [Hr Hn].
    split; [lia |]. replace (j - i) with (S (j - S i)) by lia. exact Hn.
  - destruct (str_eqb l v) eqn:El; [| discriminate].
    intros H. inversion H; subst. apply str_eqb_eq in El. subst.
    split; [lia |]. now rewrite Nat.sub_diag.
Qed.

Lemma label_to_ind_None (labels : list str) (v : str) :
  forall i, Sk.label_to_ind labels i v = None <-> ~ In v labels.
Proof.
  induction labels as [| l labels IH]; intros i; simpl.
  - split; [intros _ [] | reflexivity].
  - destruct (Sk.label_to_ind labels (S i) v) as [k |] eqn:E.
    + split; [discriminate |]. intros H. exfalso. apply H. right.
      destruct (in_dec (list_eq_dec N.eq_dec) v labels) as [Hin | Hout]; [assumption |].
      apply (IH (S i)) in Hout. congruence.
    + apply IH in E. destruct (str_eqb l v) eqn:El.
      * apply str_eqb_eq in El. split; [discriminate | intros H; exfalso; apply H; now left].
      * apply str_eqb_neq in El. split; [intros _ [H | H]; contradiction | reflexivity].
Qed.

Lemma ind_lt (labels : list str) (v : str) :
  Sk.ind labels v < length labels <-> In v labels.
Proof.
  unfold Sk.ind. destruct (Sk.label_to_ind labels 0 v) as [j |] eqn:E.
  - apply label_to_ind_Some in E. destruct E as [Hr Hn]. split; [| lia].
    intros _. apply nth_error_In in Hn. exact Hn.
  - apply label_to_ind_None in E. split; [lia | contradiction].
Qed.

Lemma ind_inj (labels : list str) (a b : str) :
  In a labels -> Sk.ind labels a = Sk.ind labels b -> a = b.
Proof.
  intros Ha. pose proof (proj2 (ind_lt labels a) Ha) as La. unfold Sk.ind in *.
  destruct (Sk.label_to_ind labels 0 a) as [j |] eqn:Ea; [| lia].
  destruct (Sk.label_to_ind labels 0 b) as [k |] eqn:Eb; [| lia].
  intros ->. apply label_to_ind_Some in Ea, Eb.
  destruct Ea as [_ Ea], Eb as [_ Eb]. congruence.
Qed.

(** ** The cross-tabulation of two sequences of texts *)

Lemma texts_Str (l : list str) : Sk.texts (List.map Str l) = Some l.
Proof. induction l; simpl; [reflexivity | now rewrite IHl]. Qed.

Lemma check_target_Str (l : list str) : Sk.check_target (List.map Str l) = Ok l.
Proof.
  unfold Sk.check_target. rewrite texts_Str. destruct l; reflexivity.
Qed.

Lemma check_targets_Str (yt yp : list str) :
  length yt = length yp ->
  Sk.check_targets (List.map Str yt) (List.map Str yp) = Ok (yt, yp).
Proof.
  intros L. unfold Sk.check_targets, Sk.check_consistent_length.
  rewrite !length_map, L, Nat.eqb_refl. simpl.
  now rewrite !check_target_Str.
Qed.

Lemma kept_in_range labels yt yp p : In p (kept labels yt yp) -> in_range (length labels) p.
Proof.
  unfold kept. intros H. apply filter_In in H. destruct H as [_ H].
  apply andb_prop in H. destruct H as [H1 H2].
  apply Nat.ltb_lt in H1, H2. split; assumption.
Qed.

Lemma kept_all labels yt yp :
  Forall (fun v => In v labels) yt -> Forall (fun v => In v labels) yp ->
  kept labels yt yp = combine (List.map (Sk.ind labels) yt) (List.map (Sk.ind labels) yp).
Proof.
  intros Ht Hp. unfold kept. apply filter_all. intros [a b] Hin. simpl.
  pose proof (in_combine_l _ _ _ _ Hin) as Ha. pose proof (in_combine_r _ _ _ _ Hin) as Hb.
  apply in_map_iff in Ha, Hb. destruct Ha as [x [<- Hx]], Hb as [y [<- Hy]].
  rewrite Forall_forall in Ht, Hp.
  apply andb_true_intro. split; apply Nat.ltb_lt, ind_lt; auto.
Qed.

Lemma confusion_matrix_Str (labels yt yp : list str) :
  length yt = length yp -> labels <> [] ->
  yt = [] \/ Exists (fun y => In y labels) yt ->
  Sk.confusion_matrix (List.map Str yt) (List.map Str yp) labels
  = Ok (Np.count_pairs (length labels) (kept labels yt yp)).
Proof.
  intros L Hl Hy. unfold Sk.confusion_matrix. rewrite check_targets_Str by assumption.
  simpl. destruct labels as [| l0 labels]; [contradiction |].
  change (length (l0 :: labels) =? 0)%nat with false. cbv iota.
  destruct yt as [| y yt].
  - simpl. unfold kept. simpl. now rewrite count_pairs_nil.
  - change (length (y :: yt) =? 0)%nat with false. cbv iota.
    destruct Hy as [Hy | Hy]; [discriminate |].
    replace (existsb (fun y0 => existsb (str_eqb y0) (l0 :: labels)) (y :: yt)) with true.
    + reflexivity.
    + symmetry. apply existsb_exists. apply Exists_exists in Hy. destruct Hy as [x [Hx Hin]].
      exists x. split; [assumption |]. apply existsb_exists. exists x.
      split; [assumption | apply str_eqb_refl].
Qed.

(** The size-mismatch error is raised exactly on sequences of different
    lengths. *)
Lemma confusion_matrix_size_mismatch (y_true y_pred : list cell) (labels : list str) :
  Sk.confusion_matrix y_true y_pred labels = Error ValueError_inconsistent_samples
  <-> length y_true <> length y_pred.
Proof.
  unfold Sk.confusion_matrix, Sk.check_targets, Sk.check_consistent_length.
  destruct (Nat.eqb_spec (length y_true) (length y_pred)) as [E | E]; simpl.
  - split; [| contradiction]. intros H. exfalso.
    destruct (Sk.check_target y_true) as [a | e] eqn:Ea; simpl in H.
    + destruct (Sk.check_target y_pred) as [b | e] eqn:Eb; simpl in H.
      * destruct (length labels =? 0)%nat; [discriminate |].
        destruct (length a =? 0)%nat; [discriminate |].
        destruct (negb _); discriminate.
      * unfold Sk.check_target in Eb. destruct y_pred as [| [| ?] ?];
          try destruct (Sk.texts _); congruence.
    + unfold Sk.check_target in Ea. destruct y_true as [| [| ?] ?];
        try destruct (Sk.texts _); congruence.
  - split; [intros _; assumption | reflexivity].
Qed.

Lemma matthews_corrcoef_size_mismatch (y_true y_pred : list cell) :
  Sk.matthews_corrcoef y_true y_pred = Error ValueError_inconsistent_samples
  <-> length y_true <> length y_pred.
Proof.
  unfold Sk.matthews_corrcoef, Sk.check_targets, Sk.check_consistent_length.
  destruct (Nat.eqb_spec (length y_true) (length y_pred)) as [E | E]; simpl.
  - split; [| contradiction]. intros H. exfalso.
    destruct (Sk.check_target y_true) as [a | e] eqn:Ea; simpl in H.
    + destruct (Sk.check_target y_pred) as [b | e] eqn:Eb; simpl in H; [discriminate |].
      unfold Sk.check_target in Eb. destruct y_pred as [| [| ?] ?];
        try destruct (Sk.texts _); congruence.
    + unfold Sk.check_target in Ea. destruct y_true as [| [| ?] ?];
        try destruct (Sk.texts _); congruence.
  - split; [intros _; assumption | reflexivity].
Qed.

(** ** The agreement ratio *)

Lemma ratio_facts (d t : Z) :
  (0 <= d <= t)%Z -> (0 < t)%Z ->
  (0 <= inject_Z d / inject_Z t)%Q /\ (inject_Z d / inject_Z t <= 1)%Q /\
  ((inject_Z d / inject_Z t == 1)%Q <-> d = t).
Proof.
  intros Hd Ht. destruct t as [| p | p]; try lia.
  unfold Qdiv, Qinv, Qmult, Qle, Qeq, inject_Z. simpl.
  repeat split; try lia.
Qed.

(** ** The gender labels of the retained Records *)

Lemma de_label_spec r :
  both_marked r = true ->
  letter de_pattern (r_de r) = Str (de_label r) /\ In (de_label r) labels.
Proof.
  unfold both_marked. intros H. apply andb_prop in H. destruct H as [H _].
  destruct (item1_marker _ _ H) as [g [Hg [E _]]].
  unfold de_label, de_pattern. rewrite E. simpl. split; [reflexivity |].
  unfold labels. simpl in Hg. destruct Hg as [<- | [<- | [<- | []]]]; simpl; auto.
Qed.

Lemma fr_label_spec r :
  both_marked r = true ->
  letter fr_pattern (r_fr r) = Str (fr_label r) /\ In (fr_label r) labels2.
Proof.
  unfold both_marked. intros H. apply andb_prop in H. destruct H as [_ H].
  destruct (item1_marker _ _ H) as [g [Hg [E _]]].
  unfold fr_label, fr_pattern. rewrite E. simpl. split; [reflexivity |].
  unfold labels2. simpl in Hg. destruct Hg as [<- | [<- | []]]; simpl; auto.
Qed.

Lemma group_spec x :
  In x labels -> Pd.map_dict_cell grouping (Str x) = Str (group x) /\ In (group x) labels2.
Proof.
  unfold labels, labels2. intros [<- | [<- | [<- | []]]]; split; vm_compute; auto.
Qed.

Lemma labels2_labels x : In x labels2 -> In x labels.
Proof. unfold labels, labels2. simpl. tauto. Qed.

Lemma letters_labelled G :
  (forall r, In r G -> both_marked r = true) -> letters G = labelled G.
Proof.
  intros H. unfold letters, labelled.
  rewrite (@map_ext_in _ _ (fun r => letter de_pattern (r_de r)) (fun r => Str (de_label r)) G)
    by (intros r Hr; apply (de_label_spec r (H r Hr))).
  rewrite (@map_ext_in _ _ (fun r => letter fr_pattern (r_fr r)) (fun r => Str (fr_label r)) G)
    by (intros r Hr; apply (fr_label_spec r (H r Hr))).
  reflexivity.
Qed.

Lemma nouns_grouped_frame idx G :
  length G = length idx ->
  (forall r, In r G -> both_marked r = true) ->
  nouns_grouped (frame idx G (labelled G)) = Ok (frame idx G (labelled G ++ grouped_column G)).
Proof.
  intros L H. unfold nouns_grouped, frame, labelled, grouped_column, Pd.getitem, Pd.map_dict.
  simpl. rewrite setitem_own by (now rewrite !length_map). simpl. rewrite map_map.
  rewrite (@map_ext_in _ _ (fun r => Pd.map_dict_cell grouping (Str (de_label r)))
             (fun r => Str (group (de_label r))) G)
    by (intros r Hr; apply group_spec, de_label_spec, H, Hr).
  reflexivity.
Qed.

Lemma confusion_matrix_labelled (ls : list str) (f g : cell * cell * cell -> str) G :
  ls <> [] ->
  (forall r, In r G -> In (f r) ls /\ In (g r) ls) ->
  Sk.confusion_matrix (List.map (fun r => Str (f r)) G) (List.map (fun r => Str (g r)) G) ls
  = Ok (Np.count_pairs (length ls) (List.map (fun r => (Sk.ind ls (f r), Sk.ind ls (g r))) G)).
Proof.
  intros Hls H.
  rewrite <- (map_map f Str), <- (map_map g Str).
  rewrite confusion_matrix_Str; try assumption.
  - rewrite kept_all, !map_map, combine_map.
    + reflexivity.
    + apply Forall_forall. intros x Hx. apply in_map_iff in Hx.
      destruct Hx as [r [<- Hr]]. apply (H r Hr).
    + apply Forall_forall. intros x Hx. apply in_map_iff in Hx.
      destruct Hx as [r [<- Hr]]. apply (H r Hr).
  - now rewrite !length_map.
  - destruct G as [| r G]; [now left | right].
    simpl. apply Exists_cons_hd. apply (H r). now left.
Qed.

Lemma cm_frame idx G more :
  (forall r, In r G -> both_marked r = true) ->
  cm (frame idx G (labelled G ++ more)) = Ok (Np.count_pairs 3 (cm_pairs G)).
Proof.
  intros H. unfold cm, frame, labelled, Pd.getitem, Pd.values. simpl.
  rewrite (@confusion_matrix_labelled labels de_label fr_label G).
  - reflexivity.
  - discriminate.
  - intros r Hr. split; [apply de_label_spec | apply labels2_labels, fr_label_spec]; auto.
Qed.

Lemma cm2_frame idx G :
  (forall r, In r G -> both_marked r = true) ->
  cm2 (frame idx G (labelled G ++ grouped_column G)) = Ok (Np.count_pairs 2 (cm2_pairs G)).
Proof.
  intros H. unfold cm2, frame, labelled, grouped_column, Pd.getitem, Pd.values. simpl.
  rewrite (@confusion_matrix_labelled labels2 (fun r => group (de_label r)) fr_label G).
  - reflexivity.
  - discriminate.
  - intros r Hr. split; [apply group_spec, de_label_spec | apply fr_label_spec]; auto.
Qed.

Lemma notebook_frame idx T K :
  length T = length idx ->
  notebook (frame idx T [("comment"%string, K)]) = Ok (notebook_of idx T).
Proof.
  intros L. unfold notebook. rewrite defr_frame, bind_ret.
  rewrite nouns_frame, bind_ret by assumption.
  rewrite nouns_markers_frame, bind_ret
    by (unfold Pd.RangeIndex; now rewrite length_map, length_seq).
  set (N := filter is_noun T).
  assert (HN : forall r, In r N -> is_noun r = true).
  { intros r Hr. apply filter_In in Hr. tauto. }
  rewrite nouns_gendered_frame;
    [| unfold Pd.RangeIndex; now rewrite length_map, length_seq | exact HN].
  rewrite bind_ret.
  set (G := filter both_marked N).
  assert (HG : forall r, In r G -> both_marked r = true).
  { intros r Hr. apply filter_In in Hr. tauto. }
  rewrite (letters_labelled G HG).
  rewrite <- (app_nil_r (labelled G)) at 1.
  rewrite cm_frame, bind_ret by exact HG.
  rewrite nouns_grouped_frame, bind_ret;
    [| unfold Pd.RangeIndex; now rewrite length_map, length_seq | exact HG].
  rewrite cm2_frame, bind_ret by exact HG.
  reflexivity.
Qed.

Lemma notebook_table (loaded : Pd.DataFrame) :
  table loaded ->
  exists T, length T = length (Pd.df_index loaded) /\
            records loaded = T /\
            notebook loaded = Ok (notebook_of (Pd.df_index loaded) T).
Proof.
  intros H. destruct (table_frame H) as [T [K [E L]]].
  exists T. split; [assumption |]. split.
  - rewrite E. apply records_frame.
  - rewrite E at 1. now apply notebook_frame.
Qed.

Lemma sample_table : table sample.
Proof. split; [reflexivity | repeat constructor]. Qed.

Lemma gendered_frame idx G :
  gendered "de_gender" (frame idx G (labelled G ++ grouped_column G))
    = List.map (fun r => (Str (de_label r), Str (fr_label r))) G /\
  gendered "de_gender_grouped" (frame idx G (labelled G ++ grouped_column G))
    = List.map (fun r => (Str (group (de_label r)), Str (fr_label r))) G.
Proof.
  unfold gendered, column, frame, labelled, grouped_column. simpl.
  now rewrite !combine_map.
Qed.

Lemma item1_markers r :
  both_marked r = true ->
  item1 (marker_de r) = Ok (Str (de_label r)) /\ item1 (marker_fr r) = Ok (Str (fr_label r)).
Proof.
  unfold both_marked. intros H. apply andb_prop in H. destruct H as [H1 H2].
  destruct (item1_marker _ _ H1) as [g1 [_ [E1 I1]]].
  destruct (item1_marker _ _ H2) as [g2 [_ [E2 I2]]].
  unfold de_label, fr_label, marker_de, marker_fr, de_pattern, fr_pattern in *.
  rewrite E1, E2, I1, I2. auto.
Qed.

Lemma Forall2_map_r {A B} (P : A -> B -> Prop) (h : A -> B) (l : list A) :
  (forall a, In a l -> P a (h a)) -> Forall2 P l (List.map h l).
Proof.
  induction l as [| a l IH]; intros H; simpl; constructor.
  - apply H. now left.
  - apply IH. intros; apply H; now right.
Qed.

Lemma agreement_count_pairs (n : nat) (pairs : list (nat * nat)) :
  (forall p, In p pairs -> in_range n p) ->
  Np.sum (Np.count_pairs n pairs) <> 0%Z ->
  exists q, agreement (Np.count_pairs n pairs) = Some q /\
    (0 <= q)%Q /\ (q <= 1)%Q /\
    ((q == 1)%Q <-> forall p, In p pairs -> fst p = snd p).
Proof.
  intros H Hs. unfold agreement, Np.true_divide.
  rewrite count_pairs_diagonal, count_pairs_sum in * by assumption.
  destruct (Z.eqb_spec (Z.of_nat (length pairs)) 0) as [E | E]; [contradiction |].
  eexists. split; [reflexivity |].
  pose proof (filter_length_le (fun p => (fst p =? snd p)%nat) pairs) as Hle.
  destruct (@ratio_facts (Z.of_nat (length (filter (fun p => (fst p =? snd p)%nat) pairs)))
              (Z.of_nat (length pairs))) as [H0 [H1 H2]]; try lia.
  split; [assumption |]. split; [assumption |].
  rewrite H2. rewrite Nat2Z.inj_iff, filter_length_all.
  split; intros Hp p Hin; specialize (Hp p Hin); now apply Nat.eqb_eq.
Qed.

Lemma agreement_labelled (ls : list str) (f g : cell * cell * cell -> str) G :
  (forall r, In r G -> In (f r) ls /\ In (g r) ls) ->
  let m := Np.count_pairs (length ls) (List.map (fun r => (Sk.ind ls (f r), Sk.ind ls (g r))) G) in
  Forall (Forall (fun c => (0 <= c)%Z)) m /\
  Np.sum m = Z.of_nat (length G) /\
  (Np.sum m <> 0%Z ->
   exists q, agreement m = Some q /\ (0 <= q)%Q /\ (q <= 1)%Q /\
     ((q == 1)%Q <-> forall r, In r G -> f r = g r)).
Proof.
  intros H m.
  assert (Hr : forall p, In p (List.map (fun r => (Sk.ind ls (f r), Sk.ind ls (g r))) G) ->
                         in_range (length ls) p).
  { intros p Hp. apply in_map_iff in Hp. destruct Hp as [r [<- Hr]].
    split; simpl; apply ind_lt, (H r Hr). }
  split; [apply count_pairs_nonneg |]. split.
  - unfold m. rewrite count_pairs_sum by assumption. now rewrite length_map.
  - intros Hs. destruct (@agreement_count_pairs _ _ Hr Hs) as [q [Eq [H0 [H1 H2]]]].
    exists q. repeat split; try assumption.
    + intros Hq r Hin. rewrite H2 in Hq.
      specialize (Hq _ (in_map _ _ _ Hin)). simpl in Hq.
      apply (@ind_inj _ _ _ (proj1 (H r Hin)) Hq).
    + intros Hq. apply H2. intros p Hp. apply in_map_iff in Hp.
      destruct Hp as [r [<- Hin]]. simpl. now rewrite (Hq r Hin).
Qed.

Lemma labels_of_retained T r :
  In r (filter both_marked (filter is_noun T)) ->
  In (de_label r) labels /\ In (group (de_label r)) labels2 /\ In (fr_label r) labels2.
Proof.
  intros Hr. apply filter_In in Hr. destruct Hr as [_ Hr].
  destruct (de_label_spec r Hr) as [_ Hd]. destruct (fr_label_spec r Hr) as [_ Hf].
  destruct (group_spec Hd) as [_ Hg]. auto.
Qed.

Lemma declared_ind (ls : list str) (v : str) :
  (Sk.ind ls v <? length ls)%nat = existsb (str_eqb v) ls.
Proof.
  destruct (existsb (str_eqb v) ls) eqn:E.
  - apply Nat.ltb_lt, ind_lt. apply existsb_exists in E. destruct E as [x [Hx E]].
    apply str_eqb_eq in E. now subst.
  - apply Nat.ltb_ge. destruct (Nat.lt_ge_cases (Sk.ind ls v) (length ls)) as [H | H]; [| assumption].
    apply ind_lt in H. exfalso.
    assert (existsb (str_eqb v) ls = true); [| congruence].
    apply existsb_exists. exists v. split; [assumption | apply str_eqb_refl].
Qed.

Lemma kept_length (ls yt yp : list str) :
  length (kept ls yt yp) = length (filter (declared ls) (combine yt yp)).
Proof.
  unfold kept. revert yp. induction yt as [| a yt IH]; intros [| b yp]; simpl; auto.
  unfold declared at 1. simpl. rewrite !declared_ind.
  destruct (existsb (str_eqb b) ls && existsb (str_eqb a) ls); simpl; now rewrite IH.
Qed.

Lemma confusion_matrix_Str_inv (ls yt yp : list str) (m : list (list Z)) :
  Sk.confusion_matrix (List.map Str yt) (List.map Str yp) ls = Ok m ->
  length yt = length yp /\ m = Np.count_pairs (length ls) (kept ls yt yp).
Proof.
  intros H.
  destruct (Nat.eq_dec (length yt) (length yp)) as [L | L].
  - split; [assumption |]. unfold Sk.confusion_matrix in H.
    rewrite check_targets_Str in H by assumption. simpl in H.
    destruct (length ls =? 0)%nat; [discriminate |].
    destruct yt as [| y yt].
    + simpl in H. inversion H. unfold kept. simpl. now rewrite count_pairs_nil.
    + change (length (y :: yt) =? 0)%nat with false in H. cbv iota in H.
      destruct (negb _); [discriminate |]. now inversion H.
  - exfalso.
    assert (E : Sk.confusion_matrix (List.map Str yt) (List.map Str yp) ls
                = Error ValueError_inconsistent_samples).
    { apply confusion_matrix_size_mismatch. now rewrite !length_map. }
    congruence.
Qed.

Lemma filter_none {A} (p : A -> bool) (l : list A) :
  (forall a, In a l -> p a = false) -> filter p l = [].
Proof.
  induction l as [| a l IH]; intros H; simpl; auto.
  rewrite (H a (or_introl eq_refl)). apply IH. intros; apply H; now right.
Qed.

Lemma cm_pairs_second T p :
  In p (cm_pairs (filter both_marked (filter is_noun T))) -> snd p < 2.
Proof.
  unfold cm_pairs. intros Hp. apply in_map_iff in Hp. destruct Hp as [r [<- Hr]].
  destruct (labels_of_retained T r Hr) as [_ [_ Hf]]. simpl.
  unfold labels2 in Hf. destruct Hf as [<- | [<- | []]]; vm_compute; lia.
Qed.

(** ** The Loader *)

Lemma named_columns_shape (rows : list (list str)) (names : list string) :
  forall j, List.map fst (Pd.named_columns rows j names) = names /\
            Forall (fun c => length (snd c) = length rows) (Pd.named_columns rows j names).
Proof.
  induction names as [| n names IH]; intros j; simpl.
  - split; [reflexivity | constructor].
  - destruct (IH (S j)) as [E F]. split; [now rewrite E |].
    constructor; [| assumption]. simpl. unfold Pd.column_at. now rewrite length_map.
Qed.

(** What the Loader returns is a table. *)
Lemma load_table (fs : Pd.filesystem) (df : Pd.DataFrame) :
  load fs = Ok df -> table df.
Proof.
  unfold load, Pd.read_csv, table. destruct (fs path) as [lines |]; [| discriminate].
  destruct (length lines <=? 7)%nat; [discriminate |].
  destruct (skipn 8 lines) as [| first rest] eqn:Ed.
  - intros H. inversion H; subst. simpl Pd.df_columns. simpl Pd.df_index.
    apply (named_columns_shape [] names 0).
  - intros H. apply bind_Ok in H. destruct H as [rows [_ H]].
    destruct (_ <? length names)%nat; [discriminate |].
    inversion H; subst. simpl Pd.df_columns. simpl Pd.df_index.
    destruct (named_columns_shape rows names
                (Nat.max (length first) (length (nth 7 lines [])) - length names)) as [E F].
    split; [exact E |].
    replace (length (if (_ =? 0)%nat then _ else _)) with (length rows); [exact F |].
    destruct (_ =? 0)%nat; unfold Pd.RangeIndex; now rewrite ?length_map, ?length_seq.
Qed.

(** From the file to the last cell: whatever table the Loader returns, the
    notebook runs on it. *)
Lemma notebook_runs_on_loaded (fs : Pd.filesystem) (loaded : Pd.DataFrame) :
  load fs = Ok loaded -> exists nb, notebook loaded = Ok nb.
Proof.
  intros H. destruct (notebook_table (load_table _ H)) as [T [_ [_ E]]]. eauto.
Qed.

Lemma tokenize_bad_line (expected : nat) (lines : list (list str)) :
  forall k line, nth_error lines k = Some line -> expected < length line ->
                 Pd.tokenize expected lines = Error ParserError.
Proof.
  induction lines as [| l lines IH]; intros k line Hk Hl.
  - destruct k; discriminate.
  - simpl. destruct (Nat.ltb_spec expected (length l)); [reflexivity |].
    destruct k as [| k]; simpl in Hk.
    + inversion Hk; subst. lia.
    + now rewrite (IH k line Hk Hl).
Qed.

Lemma tokenize_pads (expected : nat) (lines : list (list str)) :
  Forall (fun line => length line <= expected) lines ->
  Pd.tokenize expected lines = Ok (List.map (Pd.pad expected) lines).
Proof.
  induction 1 as [| l lines Hl _ IH]; simpl; [reflexivity |].
  destruct (Nat.ltb_spec expected (length l)); [lia |]. now rewrite IH.
Qed.

Lemma nth_repeat_same {A} (a : A) (n k : nat) : nth k (repeat a n) a = a.
Proof. revert k. induction n; intros [| k]; simpl; auto. Qed.

Lemma pad_missing (width : nat) (line : list str) (j : nat) :
  length line <= j -> Pd.to_cell (nth j (Pd.pad width line) []) = NaN.
Proof.
  intros H. unfold Pd.pad. rewrite app_nth2 by lia. now rewrite nth_repeat_same.
Qed.

(** * The claims *)

(** The claim of C1 fails: on the label ["x"], which is outside the domain
    of the grouping, the Grouper raises nothing and returns the missing
    value. *)
Lemma grouper_unmapped_label_returns_missing :
  Pd.map_dict grouping (Pd.mkSeries [Pd.Pos 0] [Str (py "x")])
  = Ok (Pd.mkSeries [Pd.Pos 0] [NaN]) /\
  ~ raises (Pd.map_dict grouping (Pd.mkSeries [Pd.Pos 0] [Str (py "x")])).
Proof.
  split; [reflexivity |]. intros [e H]. discriminate H.
Qed.

(** C1, amended.  The Grouper never raises: it returns a column with the
    index of its input, in which a label of the domain f, m, n is mapped to
    a label and a label outside the domain to the missing value.  The
    mapping is total over the source alphabet: the label of every marker the
    Extractor finds in a German text is in its domain. *)
Theorem grouper_total_on_source_alphabet :
  (forall s : Pd.Series,
     exists out, Pd.map_dict grouping s = Ok out /\
       Pd.s_index out = Pd.s_index s /\
       length (Pd.s_values out) = length (Pd.s_values s) /\
       forall i x, nth_error (Pd.s_values s) i = Some (Str x) ->
         (In x (List.map fst grouping) ->
            exists y, Pd.dict_get grouping x = Some y /\
                      nth_error (Pd.s_values out) i = Some (Str y)) /\
         (~ In x (List.map fst grouping) -> nth_error (Pd.s_values out) i = Some NaN)) /\
  (forall (text : cell) (m : str),
     Pd.str_extract_cell de_pattern text = Str m ->
     exists x y, item1 (Str m) = Ok (Str x) /\ In x (List.map fst grouping) /\
                 Pd.map_dict_cell grouping (Str x) = Str y).
Proof.
  split.
  - intros s. eexists. split; [reflexivity |]. simpl.
    split; [reflexivity |]. split; [apply length_map |].
    intros i x Hi. rewrite nth_error_map, Hi. simpl. split.
    + intros [<- | [<- | [<- | []]]]; eexists; split; reflexivity.
    + intros Hx.
      destruct (str_eqb (py "f") x) eqn:E1;
        [apply str_eqb_eq in E1; exfalso; apply Hx; simpl; auto |].
      destruct (str_eqb (py "m") x) eqn:E2;
        [apply str_eqb_eq in E2; exfalso; apply Hx; simpl; auto |].
      destruct (str_eqb (py "n") x) eqn:E3;
        [apply str_eqb_eq in E3; exfalso; apply Hx; simpl; auto |].
      reflexivity.
  - intros text m E. destruct (marker_tag _ _ E) as [t [i [_ [_ [Ht _]]]]].
    destruct (tag_letter Ht) as [g [rest [-> Hg]]].
    exists [g]. simpl in Hg.
    destruct Hg as [<- | [<- | [<- | []]]]; eexists; simpl; repeat split; auto.
Qed.

Lemma grouper_total_on_source_alphabet_witness :
  exists x y, item1 (Str (py "{n}")) = Ok (Str x) /\ In x (List.map fst grouping) /\
              Pd.map_dict_cell grouping (Str x) = Str y.
Proof.
  apply (proj2 grouper_total_on_source_alphabet (Str (py "Haus {n}")) (py "{n}")). reflexivity.
Defined.

(** C2.  For a text, the Extractor yields a marker exactly when a gender
    tag ([{g}] or [{g?pl}]) stands in it, and the missing value exactly when
    none does; a marker it yields is the leftmost tag of the text, and
    [s[1]] of it, the label, is the gender letter of that tag.  On
    ["Haus {n}"] the label is ["n"], on ["maison {f}"] it is ["f"]. *)
Theorem extractor_label_iff_tag (genders text : str) :
  ((exists m, Pd.str_extract_cell (gender_pattern genders) (Str text) = Str m) <->
   (exists w i, occurs_at w text i /\ tag genders w)) /\
  (Pd.str_extract_cell (gender_pattern genders) (Str text) = NaN <->
   (forall w i, occurs_at w text i -> ~ tag genders w)) /\
  (forall m, Pd.str_extract_cell (gender_pattern genders) (Str text) = Str m ->
     exists i g rest,
       occurs_at m text i /\ tag genders m /\
       (forall w j, occurs_at w text j -> tag genders w -> i <= j) /\
       m = cp "{" :: g :: rest /\ In g genders /\
       item1 (Str m) = Ok (Str [g])) /\
  item1 (Pd.str_extract_cell de_pattern (Str (py "Haus {n}"))) = Ok (Str (py "n")) /\
  item1 (Pd.str_extract_cell fr_pattern (Str (py "maison {f}"))) = Ok (Str (py "f")).
Proof.
  assert (Hnone : Pd.str_extract_cell (gender_pattern genders) (Str text) = NaN <->
                  (forall w i, occurs_at w text i -> ~ tag genders w)).
  { simpl. destruct (Re.search (gender_pattern genders) text) as [m |] eqn:E.
    - split; [discriminate |]. intros H. exfalso.
      apply search_Some in E. destruct E as [i [Hi [M _]]].
      apply (H m i Hi). now apply gender_pattern_tag.
    - split; [| reflexivity]. intros _ w i Hi Hw.
      rewrite search_None in E. apply (E w i Hi). now apply gender_pattern_tag. }
  split; [| split; [exact Hnone | split; [| split; reflexivity]]].
  - split.
    + intros [m E]. destruct (marker_tag _ _ E) as [text' [i [Et [Hi [Ht _]]]]].
      inversion Et; subst text'. eauto.
    + intros [w [i [Hi Hw]]].
      destruct (Pd.str_extract_cell (gender_pattern genders) (Str text)) as [| m] eqn:E;
        [| eauto].
      exfalso. exact (proj1 Hnone eq_refl w i Hi Hw).
  - intros m E. destruct (marker_tag _ _ E) as [text' [i [Et [Hi [Ht Hleft]]]]].
    inversion Et; subst text'. destruct (tag_letter Ht) as [g [rest [-> Hg]]].
    exists i, g, rest. repeat split; auto.
Qed.

Lemma extractor_label_iff_tag_witness :
  exists i g rest,
    occurs_at (py "{n}") (py "Haus {n}") i /\ tag (py "mfn") (py "{n}") /\
    (forall w j, occurs_at w (py "Haus {n}") j -> tag (py "mfn") w -> i <= j) /\
    py "{n}" = cp "{" :: g :: rest /\ In g (py "mfn") /\
    item1 (Str (py "{n}")) = Ok (Str [g]).
Proof.
  apply (proj1 (proj2 (proj2 (extractor_label_iff_tag (py "mfn") (py "Haus {n}"))))).
  reflexivity.
Defined.

(** C3.  On every table the notebook runs, and the Records of
    [nouns_gendered] are exactly the Records of [nouns] whose source field
    and target field both yield a gender marker, in their order; the two
    labels of a retained Record are [s[1]] of its two markers.  A Record
    with source text ["foo"] is dropped whatever its target field. *)
Theorem retained_iff_both_marked (loaded : Pd.DataFrame) :
  table loaded ->
  exists nb, notebook loaded = Ok nb /\
    records (nb_nouns_gendered nb) = filter both_marked (records (nb_nouns nb)) /\
    Pd.len (nb_nouns_gendered nb) = length (filter both_marked (records (nb_nouns nb))) /\
    Forall2 (fun r pair =>
               item1 (marker_de r) = Ok (fst pair) /\ item1 (marker_fr r) = Ok (snd pair))
            (records (nb_nouns_gendered nb))
            (gendered "de_gender" (nb_nouns_gendered nb)) /\
    (forall fr cat, both_marked (Str (py "foo"), fr, cat) = false).
Proof.
  intros H. destruct (notebook_table H) as [T [L [_ E]]].
  eexists. split; [exact E |]. notebook_fields.
  set (G := filter both_marked (filter is_noun T)).
  destruct (gendered_frame (Pd.RangeIndex (length G)) G) as [E1 _]. rewrite E1.
  rewrite !records_frame. unfold Pd.len, frame, Pd.RangeIndex. simpl Pd.df_index.
  rewrite length_map, length_seq.
  split; [reflexivity |]. split; [reflexivity |]. split; [| reflexivity].
  apply Forall2_map_r. intros r Hr. apply item1_markers.
  apply filter_In in Hr. tauto.
Qed.

Lemma retained_iff_both_marked_witness :
  table sample /\
  exists nb, notebook sample = Ok nb /\
    records (nb_nouns_gendered nb) = filter both_marked (records (nb_nouns nb)) /\
    Pd.len (nb_nouns_gendered nb) = length (filter both_marked (records (nb_nouns nb))) /\
    Forall2 (fun r pair =>
               item1 (marker_de r) = Ok (fst pair) /\ item1 (marker_fr r) = Ok (snd pair))
            (records (nb_nouns_gendered nb))
            (gendered "de_gender" (nb_nouns_gendered nb)) /\
    (forall fr cat, both_marked (Str (py "foo"), fr, cat) = false).
Proof.
  split; [exact sample_table | apply (retained_iff_both_marked sample_table)].
Defined.

(** C4.  On every table the notebook runs; when the grouped table [cm2] has
    a nonzero total, the agreement ratio [cm2.diagonal().sum() / cm2.sum()]
    lies in [0, 1] and is 1 exactly when, in every pair, the grouped source
    label equals the target label.  The same holds of the ungrouped table
    [cm] and the ungrouped labels. *)
Theorem agreement_ratio_bounds (loaded : Pd.DataFrame) :
  table loaded ->
  exists nb, notebook loaded = Ok nb /\
    (Np.sum (nb_cm2 nb) <> 0%Z ->
     exists q, nb_agreement nb = Some q /\ (0 <= q)%Q /\ (q <= 1)%Q /\
       ((q == 1)%Q <->
        forall p, In p (gendered "de_gender_grouped" (nb_nouns_gendered nb)) -> fst p = snd p)) /\
    (Np.sum (nb_cm nb) <> 0%Z ->
     exists q, agreement (nb_cm nb) = Some q /\ (0 <= q)%Q /\ (q <= 1)%Q /\
       ((q == 1)%Q <->
        forall p, In p (gendered "de_gender" (nb_nouns_gendered nb)) -> fst p = snd p)).
Proof.
  intros H. destruct (notebook_table H) as [T [L [_ E]]].
  eexists. split; [exact E |]. notebook_fields.
  set (G := filter both_marked (filter is_noun T)).
  destruct (gendered_frame (Pd.RangeIndex (length G)) G) as [E1 E2]. rewrite E1, E2.
  split.
  - destruct (@agreement_labelled labels2 (fun r => group (de_label r)) fr_label G)
      as [_ [_ Hq]].
    { intros r Hr. destruct (labels_of_retained T r Hr) as [_ [Hg Hf]]. auto. }
    intros Hs. destruct (Hq Hs) as [q [Eq [H0 [H1 H2]]]].
    exists q. repeat split; try assumption.
    + intros Hone p Hp. apply in_map_iff in Hp. destruct Hp as [r [<- Hr]]. simpl.
      f_equal. now apply H2.
    + intros Hall. apply H2. intros r Hr.
      specialize (Hall _ (in_map _ _ _ Hr)). simpl in Hall. congruence.
  - destruct (@agreement_labelled labels de_label fr_label G) as [_ [_ Hq]].
    { intros r Hr. destruct (labels_of_retained T r Hr) as [Hd [_ Hf]].
      split; [assumption | now apply labels2_labels]. }
    intros Hs. destruct (Hq Hs) as [q [Eq [H0 [H1 H2]]]].
    exists q. repeat split; try assumption.
    + intros Hone p Hp. apply in_map_iff in Hp. destruct Hp as [r [<- Hr]]. simpl.
      f_equal. now apply H2.
    + intros Hall. apply H2. intros r Hr.
      specialize (Hall _ (in_map _ _ _ Hr)). simpl in Hall. congruence.
Qed.

Lemma agreement_ratio_bounds_witness :
  table sample /\
  exists nb q, notebook sample = Ok nb /\ Np.sum (nb_cm2 nb) = 4%Z /\
    nb_agreement nb = Some q /\ (0 <= q)%Q /\ (q <= 1)%Q /\ (q == 3 # 4)%Q.
Proof.
  split; [exact sample_table |].
  destruct (agreement_ratio_bounds sample_table) as [nb [E [H2 _]]].
  assert (S4 : Np.sum (nb_cm2 nb) = 4%Z).
  { vm_compute in E. inversion E. reflexivity. }
  destruct H2 as [q [Eq [H0 [H1 _]]]]; [rewrite S4; discriminate |].
  exists nb, q. repeat split; try assumption.
  vm_compute in E. inversion E; subst nb. simpl in Eq. inversion Eq. reflexivity.
Defined.

(** C5.  For two sequences of texts of equal length whose labels are all
    among the declared [labels], the Cross-tabulator returns a table of
    non-negative cells that sum to the number of pairs.  Whatever the
    labels, a table it returns has non-negative cells that sum to the number
    of pairs it counted, those with both labels declared.  With
    source = [m, f, n, m] and target = [m, f, m, f], grouping gives
    [m, f, m, m], the table over [m, f] is [[2, 1], [0, 1]] and the
    agreement ratio is 3/4. *)
Theorem crosstab_cells_sum_to_pairs :
  (forall ls yt yp : list str,
      ls <> [] -> length yt = length yp ->
      Forall (fun v => In v ls) yt -> Forall (fun v => In v ls) yp ->
      exists m, Sk.confusion_matrix (List.map Str yt) (List.map Str yp) ls = Ok m /\
                Forall (Forall (fun c => (0 <= c)%Z)) m /\
                Np.sum m = Z.of_nat (length yt)) /\
  (forall (ls yt yp : list str) (m : list (list Z)),
      Sk.confusion_matrix (List.map Str yt) (List.map Str yp) ls = Ok m ->
      Forall (Forall (fun c => (0 <= c)%Z)) m /\
      Np.sum m = Z.of_nat (length (filter (declared ls) (combine yt yp)))) /\
  (Pd.map_dict grouping
     (Pd.mkSeries (Pd.RangeIndex 4) (List.map Str [py "m"; py "f"; py "n"; py "m"]))
   = Ok (Pd.mkSeries (Pd.RangeIndex 4) (List.map Str [py "m"; py "f"; py "m"; py "m"])) /\
   Sk.confusion_matrix (List.map Str [py "m"; py "f"; py "m"; py "m"])
                       (List.map Str [py "m"; py "f"; py "m"; py "f"]) labels2
   = Ok [[2; 1]; [0; 1]]%Z /\
   agreement [[2; 1]; [0; 1]]%Z = Some (3 # 4)%Q).
Proof.
  split; [| split; [| repeat split]].
  - intros ls yt yp Hls L Ht Hp. eexists. split.
    + apply confusion_matrix_Str; try assumption.
      destruct yt as [| y yt]; [now left | right].
      apply Exists_cons_hd. now inversion Ht.
    + split; [apply count_pairs_nonneg |].
      rewrite count_pairs_sum by apply kept_in_range.
      rewrite kept_all by assumption.
      rewrite length_combine, !length_map. f_equal. lia.
  - intros ls yt yp m H. apply confusion_matrix_Str_inv in H. destruct H as [L ->].
    split; [apply count_pairs_nonneg |].
    rewrite count_pairs_sum by apply kept_in_range. now rewrite kept_length.
Qed.

Lemma crosstab_cells_sum_to_pairs_witness :
  exists m, Sk.confusion_matrix (List.map Str [py "m"; py "f"; py "m"; py "m"])
                                (List.map Str [py "m"; py "f"; py "m"; py "f"]) labels2 = Ok m /\
            Forall (Forall (fun c => (0 <= c)%Z)) m /\
            Np.sum m = Z.of_nat (length [py "m"; py "f"; py "m"; py "m"]).
Proof.
  apply (proj1 crosstab_cells_sum_to_pairs).
  - discriminate.
  - reflexivity.
  - unfold labels2. apply Forall_forall. simpl. tauto.
  - unfold labels2. apply Forall_forall. simpl. tauto.
Defined.

(** The claim of C6 fails: the second line of [short_file] has three fields
    for the four named columns, and the Loader returns the table, with the
    missing value in the line's [comment]. *)
Lemma loader_pads_short_line :
  load (disk (Some short_file))
  = Ok (Pd.mkFrame (Pd.RangeIndex 2)
          [("de", [Str (py "Haus {n}"); Str (py "Mann {m}")]);
           ("fr", [Str (py "maison {f}"); Str (py "homme {m}")]);
           ("cat", [Str (py "noun"); Str (py "noun")]);
           ("comment", [Str (py "arch."); NaN])]%string).
Proof. reflexivity. Qed.

(** C6, amended.  The Loader raises when the file is absent, and when a
    data line after the first has more fields than the first data line and
    the header line.  A data line with fewer fields than the four named
    columns raises nothing: when the first data line has the four fields and
    no line has more, the Loader returns a table with one row per data line,
    in which the columns a line has no field for hold the missing value. *)
Theorem loader_failures (fs : Pd.filesystem) :
  (fs path = None -> load fs = Error FileNotFoundError) /\
  (forall lines first line k,
      fs path = Some lines ->
      nth_error lines 8 = Some first ->
      nth_error lines (9 + k) = Some line ->
      Nat.max (length first) (length (nth 7 lines [])) < length line ->
      load fs = Error ParserError) /\
  (forall lines,
      fs path = Some lines ->
      8 < length lines ->
      length (nth 8 lines []) = 4 ->
      Forall (fun line => length line <= 4) (skipn 7 lines) ->
      exists df, load fs = Ok df /\ table df /\ Pd.len df = length lines - 8 /\
        forall i line j name,
          nth_error lines (8 + i) = Some line ->
          length line <= j -> nth_error names j = Some name ->
          nth_error (column df name) i = Some NaN).
Proof.
  split; [| split].
  - intros H. unfold load, Pd.read_csv. now rewrite H.
  - intros lines first line k Hf H8 Hk Hl. unfold load, Pd.read_csv. rewrite Hf.
    assert (L : 8 < length lines).
    { apply nth_error_Some. rewrite H8. discriminate. }
    destruct (Nat.leb_spec (length lines) 7); [lia |].
    assert (Hd : nth_error (skipn 8 lines) 0 = Some first) by (now rewrite nth_error_skipn).
    destruct (skipn 8 lines) as [| first' rest] eqn:Ed; [discriminate |].
    simpl in Hd. inversion Hd; subst first'.
    rewrite (@tokenize_bad_line _ (first :: rest) (S k) line); [reflexivity | | assumption].
    rewrite <- Ed, nth_error_skipn. exact Hk.
  - intros lines Hf L H8 Hall.
    assert (E : load fs = Ok (Pd.mkFrame (Pd.RangeIndex (length (skipn 8 lines)))
                               (Pd.named_columns (List.map (Pd.pad 4) (skipn 8 lines)) 0 names))).
    { unfold load, Pd.read_csv. rewrite Hf.
      destruct (Nat.leb_spec (length lines) 7); [lia |].
      destruct (skipn 8 lines) as [| first rest] eqn:Ed.
      - apply (f_equal (@length _)) in Ed. rewrite length_skipn in Ed. simpl in Ed. lia.
      - assert (H7 : length (nth 7 lines []) <= 4).
        { rewrite Forall_forall in Hall. apply Hall.
          rewrite <- (Nat.add_0_r 7). rewrite <- nth_skipn.
          apply nth_In. rewrite length_skipn. lia. }
        assert (Hfirst : first = nth 8 lines []).
        { rewrite <- (Nat.add_0_r 8). rewrite <- nth_skipn. now rewrite Ed. }
        assert (W : Nat.max (length first) (length (nth 7 lines [])) = 4)
          by (rewrite Hfirst; lia).
        rewrite W. rewrite tokenize_pads.
        + rewrite bind_ret.
          replace (_ <? length names)%nat with false.
          * simpl length at 3. simpl Nat.sub. cbv iota. now rewrite length_map.
          * symmetry. apply Nat.ltb_ge.
            assert (Hm : forall l : list nat, 4 <= fold_right Nat.max 4 l).
            { induction l; simpl; lia. }
            apply Hm.
        + rewrite <- Ed. rewrite Forall_forall in *. intros l Hl. apply Hall.
          change 8 with (1 + 7) in Hl. rewrite <- skipn_skipn in Hl.
          destruct (skipn 7 lines); simpl in Hl; [contradiction | now right]. }
    assert (Hrows : forall i line, nth_error lines (8 + i) = Some line ->
              nth_error (List.map (Pd.pad 4) (skipn 8 lines)) i = Some (Pd.pad 4 line)).
    { intros i line Hi. apply map_nth_error. now rewrite nth_error_skipn. }
    remember (List.map (Pd.pad 4) (skipn 8 lines)) as rows eqn:Erows. clear Erows.
    eexists. split; [exact E |]. split; [apply (@load_table _ _ E) |]. split.
    + unfold Pd.len, Pd.RangeIndex. cbn [Pd.df_index].
      now rewrite length_map, length_seq, length_skipn.
    + intros i line j name Hi Hj Hn. unfold column. cbn [Pd.df_columns].
      pose proof (Hrows i line Hi) as Hrow.
      unfold names in Hn.
      destruct j as [| [| [| [| j]]]]; simpl in Hn;
        [| | | | destruct j; discriminate];
        inversion Hn; subst; simpl;
        unfold Pd.column_at; rewrite nth_error_map;
        unfold str in Hrow |- *; rewrite Hrow; simpl;
        now rewrite pad_missing.
Qed.

Lemma loader_failures_witness :
  load (disk None) = Error FileNotFoundError /\
  load (disk (Some wide_file)) = Error ParserError /\
  exists df, load (disk (Some short_file)) = Ok df /\ table df /\ Pd.len df = 2 /\
             nth_error (column df "comment") 1 = Some NaN.
Proof.
  split; [| split].
  - apply (proj1 (loader_failures (disk None))). reflexivity.
  - apply (proj1 (proj2 (loader_failures (disk (Some wide_file))))
             wide_file [py "Haus {n}"; py "maison {f}"; py "noun"; py "arch."]
             [py "Mann {m}"; py "homme {m}"; py "noun"; py "x"; py "y"] 0);
      try reflexivity; simpl; lia.
  - destruct (proj2 (proj2 (loader_failures (disk (Some short_file)))) short_file)
      as [df [E [Ht [Hl Hc]]]]; try reflexivity.
    + simpl. lia.
    + unfold short_file, preamble. simpl. repeat constructor.
    + exists df. split; [exact E |]. split; [exact Ht |]. split; [exact Hl |].
      apply (Hc 1 [py "Mann {m}"; py "homme {m}"; py "noun"] 3 "comment"%string);
        try reflexivity; simpl; lia.
Defined.

(** C7.  The Filter keeps exactly the Records whose category satisfies the
    predicate, in their order: for any predicate [P] on the category, the
    frame indexed by the mask of [P] holds the sub-sequence of the Records
    satisfying [P]; [nouns] holds the Records of category ["noun"].  The
    Filter is a function: it returns a new frame and leaves its input as it
    is. *)
Theorem filter_keeps_satisfying_in_order (loaded : Pd.DataFrame) (P : cell -> bool) :
  table loaded ->
  exists d cat, defr loaded = Ok d /\ Pd.getitem d "cat" = Ok cat /\
    records (Pd.getitem_mask d (List.map P (Pd.values cat)))
      = filter (fun r => P (r_cat r)) (records d) /\
    exists n, nouns d = Ok n /\
      records n = filter (fun r => Pd.cell_eq (py "noun") (r_cat r)) (records d).
Proof.
  intros H. destruct (table_frame H) as [T [K [E L]]]. rewrite E.
  exists (frame (Pd.df_index loaded) T []). eexists.
  split; [apply defr_frame |]. split; [reflexivity |]. split.
  - rewrite records_frame. unfold Pd.getitem_mask, frame, Pd.values. simpl.
    rewrite map_map, !select_map.
    apply (records_frame (Pd.select (List.map (fun x => P (r_cat x)) T) (Pd.df_index loaded))
             (filter (fun r => P (r_cat r)) T) []).
  - eexists. split; [now apply nouns_frame |]. now rewrite !records_frame.
Qed.

Lemma filter_keeps_satisfying_in_order_witness :
  table sample /\
  exists d cat, defr sample = Ok d /\ Pd.getitem d "cat" = Ok cat /\
    records (Pd.getitem_mask d (List.map notna (Pd.values cat)))
      = filter (fun r => notna (r_cat r)) (records d) /\
    exists n, nouns d = Ok n /\
      records n = filter (fun r => Pd.cell_eq (py "noun") (r_cat r)) (records d).
Proof.
  split; [exact sample_table | apply (filter_keeps_satisfying_in_order notna sample_table)].
Defined.

(** C8.  The Grouper is a function that maps every label of its domain
    f, m, n to a label of that domain, and mapping the result again changes
    nothing: group (group x) = group x. *)
Theorem grouper_idempotent (x : str) :
  In x (List.map fst grouping) ->
  exists y, Pd.map_dict_cell grouping (Str x) = Str y /\
            In y (List.map fst grouping) /\
            Pd.map_dict_cell grouping (Pd.map_dict_cell grouping (Str x))
              = Pd.map_dict_cell grouping (Str x).
Proof.
  intros [<- | [<- | [<- | []]]]; eexists; repeat split; simpl; auto.
Qed.

Lemma grouper_idempotent_witness :
  In (py "n") (List.map fst grouping) /\
  exists y, Pd.map_dict_cell grouping (Str (py "n")) = Str y /\
            In y (List.map fst grouping) /\
            Pd.map_dict_cell grouping (Pd.map_dict_cell grouping (Str (py "n")))
              = Pd.map_dict_cell grouping (Str (py "n")).
Proof.
  assert (H : In (py "n") (List.map fst grouping)) by (simpl; auto).
  split; [exact H | apply (grouper_idempotent H)].
Defined.

(** Applied to a whole column, whatever it holds, the Grouper is idempotent
    too. *)
Lemma grouper_idempotent_on_columns (s : Pd.Series) :
  exists s1, Pd.map_dict grouping s = Ok s1 /\ Pd.map_dict grouping s1 = Ok s1.
Proof.
  eexists. split; [reflexivity |]. unfold Pd.map_dict. simpl. f_equal. f_equal.
  rewrite map_map. apply map_ext. intros [| x]; [reflexivity |].
  simpl. destruct (str_eqb (py "f") x); [reflexivity |].
  destruct (str_eqb (py "m") x); [reflexivity |].
  destruct (str_eqb (py "n") x); reflexivity.
Qed.

(** C9.  On every table the notebook runs, and every French label of
    [nouns_gendered] is ["m"] or ["f"]; so the third column of the table
    [cm] over [m, f, n] is zero in every row, and [cm[:, :2]], which the
    chi-squared test is given, has the same total as [cm]. *)
Theorem french_column_n_is_zero (loaded : Pd.DataFrame) :
  table loaded ->
  exists nb, notebook loaded = Ok nb /\
    (forall p, In p (gendered "de_gender" (nb_nouns_gendered nb)) ->
               snd p = Str (py "m") \/ snd p = Str (py "f")) /\
    (length (nb_cm nb) = 3 /\ forall row, In row (nb_cm nb) -> length row = 3 /\ nth 2 row 0%Z = 0%Z) /\
    Np.sum (Np.columns_upto 2 (nb_cm nb)) = Np.sum (nb_cm nb).
Proof.
  intros H. destruct (notebook_table H) as [T [L [_ E]]].
  eexists. split; [exact E |]. notebook_fields.
  set (G := filter both_marked (filter is_noun T)).
  destruct (gendered_frame (Pd.RangeIndex (length G)) G) as [E1 _]. rewrite E1.
  assert (Z2 : forall i, Z.of_nat (length (filter (fun p => (fst p =? i)%nat && (snd p =? 2)%nat)
                                            (cm_pairs G))) = 0%Z).
  { intros i. rewrite filter_none; [reflexivity |]. intros p Hp.
    apply cm_pairs_second in Hp. destruct (Nat.eqb_spec (snd p) 2); [lia |].
    apply andb_false_r. }
  split; [| split].
  - intros p Hp. apply in_map_iff in Hp. destruct Hp as [r [<- Hr]]. simpl.
    destruct (labels_of_retained T r Hr) as [_ [_ Hf]].
    unfold labels2 in Hf. destruct Hf as [<- | [<- | []]]; auto.
  - unfold Np.count_pairs. simpl. split; [reflexivity |].
    intros row [<- | [<- | [<- | []]]]; simpl; split; try reflexivity; apply Z2.
  - unfold Np.count_pairs, Np.columns_upto, Np.sum. simpl. rewrite !Z2. lia.
Qed.

Lemma french_column_n_is_zero_witness :
  table sample /\
  exists nb, notebook sample = Ok nb /\
    (forall p, In p (gendered "de_gender" (nb_nouns_gendered nb)) ->
               snd p = Str (py "m") \/ snd p = Str (py "f")) /\
    (length (nb_cm nb) = 3 /\ forall row, In row (nb_cm nb) -> length row = 3 /\ nth 2 row 0%Z = 0%Z) /\
    Np.sum (Np.columns_upto 2 (nb_cm nb)) = Np.sum (nb_cm nb).
Proof.
  split; [exact sample_table | apply (french_column_n_is_zero sample_table)].
Defined.

(** C10.  On every table the notebook runs, and the label columns of
    [nouns_gendered] that the Cross-tabulator and the correlation are given
    have one length; so the length check passes, both tables are returned,
    and neither correlation raises the size-mismatch error. *)
Theorem label_columns_equal_length (loaded : Pd.DataFrame) :
  table loaded ->
  exists nb, notebook loaded = Ok nb /\
    let g := nb_nouns_gendered nb in
    length (column g "de_gender") = length (column g "fr_gender") /\
    length (column g "de_gender_grouped") = length (column g "fr_gender") /\
    Sk.check_consistent_length (column g "de_gender") (column g "fr_gender") = Ok tt /\
    Sk.check_consistent_length (column g "de_gender_grouped") (column g "fr_gender") = Ok tt /\
    cm g = Ok (nb_cm nb) /\
    cm2 g = Ok (nb_cm2 nb) /\
    nb_phi nb <> Error ValueError_inconsistent_samples /\
    nb_phi_grouped nb <> Error ValueError_inconsistent_samples.
Proof.
  intros H. destruct (notebook_table H) as [T [L [_ E]]].
  eexists. split; [exact E |]. notebook_fields.
  set (G := filter both_marked (filter is_noun T)).
  assert (HG : forall r, In r G -> both_marked r = true).
  { intros r Hr. apply filter_In in Hr. tauto. }
  cbv zeta.
  assert (C1 : column (frame (Pd.RangeIndex (length G)) G (labelled G ++ grouped_column G))
                      "de_gender" = List.map (fun r => Str (de_label r)) G) by reflexivity.
  assert (C2 : column (frame (Pd.RangeIndex (length G)) G (labelled G ++ grouped_column G))
                      "fr_gender" = List.map (fun r => Str (fr_label r)) G) by reflexivity.
  assert (C3 : column (frame (Pd.RangeIndex (length G)) G (labelled G ++ grouped_column G))
                      "de_gender_grouped" = List.map (fun r => Str (group (de_label r))) G)
    by reflexivity.
  rewrite C1, C2, C3. unfold Sk.check_consistent_length. rewrite !length_map, Nat.eqb_refl.
  repeat split.
  - now apply cm_frame.
  - now apply cm2_frame.
  - unfold phi, frame, labelled, grouped_column, Pd.getitem, Pd.values. simpl.
    rewrite matthews_corrcoef_size_mismatch, !length_map. auto.
  - unfold phi, frame, labelled, grouped_column, Pd.getitem, Pd.values. simpl.
    rewrite matthews_corrcoef_size_mismatch, !length_map. auto.
Qed.

Lemma label_columns_equal_length_witness :
  table sample /\
  exists nb, notebook sample = Ok nb /\
    let g := nb_nouns_gendered nb in
    length (column g "de_gender") = length (column g "fr_gender") /\
    length (column g "de_gender_grouped") = length (column g "fr_gender") /\
    Sk.check_consistent_length (column g "de_gender") (column g "fr_gender") = Ok tt /\
    Sk.check_consistent_length (column g "de_gender_grouped") (column g "fr_gender") = Ok tt /\
    cm g = Ok (nb_cm nb) /\
    cm2 g = Ok (nb_cm2 nb) /\
    nb_phi nb <> Error ValueError_inconsistent_samples /\
    nb_phi_grouped nb <> Error ValueError_inconsistent_samples.
Proof.
  split; [exact sample_table | apply (label_columns_equal_length sample_table)].
Defined.

(** * Further properties of the notebook *)

(** ** Dropping the comment column *)

(** X1.  Cell [defr = defr.drop(labels=['comment'], axis=1)]: on a loaded table
    it removes the comment column and nothing else (the other columns and
    the index are as they were); run a second time, on its own result, it
    raises [KeyError]. *)
Theorem drop_comment_once (loaded : Pd.DataFrame) :
  table loaded ->
  exists d, defr loaded = Ok d /\
    List.map fst (Pd.df_columns d) = ["de"; "fr"; "cat"]%string /\
    Pd.df_index d = Pd.df_index loaded /\
    (forall name, name <> "comment"%string -> column d name = column loaded name) /\
    column d "comment" = [] /\
    defr d = Error KeyError.
Proof.
  intros H. destruct (table_frame H) as [T [K [E L]]].
  exists (frame (Pd.df_index loaded) T []).
  split; [rewrite E at 1; apply defr_frame |].
  split; [reflexivity |]. split; [reflexivity |]. split; [| split; reflexivity].
  intros name Hn. rewrite E. unfold column, frame.
  cbn [Pd.df_columns app Pd.lookup Pd.df_index].
  destruct (String.eqb "de" name); [reflexivity |].
  destruct (String.eqb "fr" name); [reflexivity |].
  destruct (String.eqb "cat" name); [reflexivity |].
  destruct (String.eqb_spec "comment" name) as [Ec | Ec]; [| reflexivity].
  exfalso. apply Hn. now symmetry.
Qed.

Lemma drop_comment_once_witness :
  table sample /\
  exists d, defr sample = Ok d /\
    List.map fst (Pd.df_columns d) = ["de"; "fr"; "cat"]%string /\
    Pd.df_index d = Pd.df_index sample /\
    (forall name, name <> "comment"%string -> column d name = column sample name) /\
    column d "comment" = [] /\
    defr d = Error KeyError.
Proof.
  split; [exact sample_table | apply (drop_comment_once sample_table)].
Defined.

(** ** The Filter, run again *)

Lemma RangeIndex_length (n : nat) : length (Pd.RangeIndex n) = n.
Proof. unfold Pd.RangeIndex. now rewrite length_map, length_seq. Qed.

Lemma is_noun_cat (r : cell * cell * cell) : is_noun r = true <-> r_cat r = Str (py "noun").
Proof.
  unfold is_noun, Pd.cell_eq. destruct (r_cat r) as [| x].
  - split; discriminate.
  - rewrite str_eqb_eq. split; congruence.
Qed.

(** X2.  Cell [nouns = defr[defr.cat == 'noun'].reset_index(drop=True)]: every
    Record of [nouns] has the category ["noun"], the rows are numbered
    0, 1, ... anew, there are no more of them than in [defr], and filtering
    [nouns] again returns [nouns]. *)
Theorem nouns_filter_idempotent (loaded : Pd.DataFrame) :
  table loaded ->
  exists d n, defr loaded = Ok d /\ nouns d = Ok n /\
    nouns n = Ok n /\
    Pd.df_index n = Pd.RangeIndex (Pd.len n) /\
    (forall r, In r (records n) -> r_cat r = Str (py "noun")) /\
    Pd.len n <= Pd.len d.
Proof.
  intros H. destruct (table_frame H) as [T [K [E L]]].
  set (N := filter is_noun T).
  assert (HN : forall r, In r N -> is_noun r = true).
  { intros r Hr. apply filter_In in Hr. tauto. }
  exists (frame (Pd.df_index loaded) T []),
         (frame (Pd.RangeIndex (length N)) N []).
  split; [rewrite E at 1; apply defr_frame |].
  split; [now apply nouns_frame |].
  split.
  - rewrite nouns_frame by (now rewrite RangeIndex_length).
    now rewrite (filter_all is_noun N HN).
  - unfold Pd.len, frame. simpl Pd.df_index. rewrite RangeIndex_length.
    split; [reflexivity |]. split.
    + intros r Hr. change (In r (records (frame (Pd.RangeIndex (length N)) N []))) in Hr.
      rewrite records_frame in Hr. now apply is_noun_cat, HN.
    + rewrite <- L. apply filter_length_le.
Qed.

Lemma nouns_filter_idempotent_witness :
  table sample /\
  exists d n, defr sample = Ok d /\ nouns d = Ok n /\
    nouns n = Ok n /\
    Pd.df_index n = Pd.RangeIndex (Pd.len n) /\
    (forall r, In r (records n) -> r_cat r = Str (py "noun")) /\
    Pd.len n <= Pd.len d.
Proof.
  split; [exact sample_table | apply (nouns_filter_idempotent sample_table)].
Defined.

(** ** The marker columns *)

Lemma nouns_markers_rerun idx T :
  length T = length idx ->
  nouns_markers (frame idx T (markers T)) = Ok (frame idx T (markers T)).
Proof.
  intros L. unfold nouns_markers, frame, markers, Pd.getitem, Pd.str_extract.
  simpl. rewrite setitem_own by (now rewrite !length_map).
  simpl. rewrite setitem_own by (now rewrite !length_map).
  simpl. rewrite !map_map. reflexivity.
Qed.

(** X3.  Cell [nouns['de_gender'] = nouns.de.str.extract(...)] (and [fr]): the two
    new columns are aligned with the rows, entry [i] of a marker column is
    what the pattern extracts from the text of row [i]; the Records of
    [nouns] are untouched; and running the cell again on its result changes
    nothing. *)
Theorem marker_columns_aligned (loaded : Pd.DataFrame) :
  table loaded ->
  exists nb, notebook loaded = Ok nb /\
    column (nb_nouns nb) "de_gender" = List.map marker_de (records (nb_nouns nb)) /\
    column (nb_nouns nb) "fr_gender" = List.map marker_fr (records (nb_nouns nb)) /\
    nouns (nb_defr nb) = Ok (Pd.mkFrame (Pd.df_index (nb_nouns nb))
                               (firstn 3 (Pd.df_columns (nb_nouns nb)))) /\
    nouns_markers (nb_nouns nb) = Ok (nb_nouns nb).
Proof.
  intros H. destruct (notebook_table H) as [T [L [_ E]]].
  eexists. split; [exact E |]. notebook_fields.
  set (N := filter is_noun T).
  rewrite records_frame.
  split; [reflexivity |]. split; [reflexivity |]. split.
  - now apply nouns_frame.
  - apply nouns_markers_rerun. now rewrite RangeIndex_length.
Qed.

Lemma marker_columns_aligned_witness :
  table sample /\
  exists nb, notebook sample = Ok nb /\
    column (nb_nouns nb) "de_gender" = List.map marker_de (records (nb_nouns nb)) /\
    column (nb_nouns nb) "fr_gender" = List.map marker_fr (records (nb_nouns nb)) /\
    nouns (nb_defr nb) = Ok (Pd.mkFrame (Pd.df_index (nb_nouns nb))
                               (firstn 3 (Pd.df_columns (nb_nouns nb)))) /\
    nouns_markers (nb_nouns nb) = Ok (nb_nouns nb).
Proof.
  split; [exact sample_table | apply (marker_columns_aligned sample_table)].
Defined.

(** ** No missing value after the Extractor *)

Lemma retained_notna T r :
  In r (filter both_marked (filter is_noun T)) ->
  notna (r_de r) = true /\ notna (r_fr r) = true /\ notna (r_cat r) = true.
Proof.
  intros Hr. apply filter_In in Hr. destruct Hr as [Hn Hb].
  apply filter_In in Hn. destruct Hn as [_ Hn].
  unfold both_marked in Hb. apply andb_prop in Hb. destruct Hb as [H1 H2].
  split; [exact (marker_notna_text _ _ H1) |].
  split; [exact (marker_notna_text _ _ H2) |].
  apply is_noun_cat in Hn. now rewrite Hn.
Qed.

Lemma Forall_map_in {A B} (P : B -> Prop) (f : A -> B) (l : list A) :
  (forall a, In a l -> P (f a)) -> Forall P (List.map f l).
Proof.
  intros H. apply Forall_forall. intros b Hb. apply in_map_iff in Hb.
  destruct Hb as [a [<- Ha]]. now apply H.
Qed.

(** X4.  Cells [nouns_gendered = nouns.dropna(axis=0).reset_index(drop=True)] to
    the grouping: [nouns_gendered] is a well-formed frame numbered
    0, 1, ... in which no cell of any column is missing; its German labels
    are among m, f, n and its French and grouped labels among m, f. *)
Theorem nouns_gendered_has_no_missing_value (loaded : Pd.DataFrame) :
  table loaded ->
  exists nb, notebook loaded = Ok nb /\
    let g := nb_nouns_gendered nb in
    Pd.df_index g = Pd.RangeIndex (Pd.len g) /\
    List.map fst (Pd.df_columns g)
      = ["de"; "fr"; "cat"; "de_gender"; "fr_gender"; "de_gender_grouped"]%string /\
    Forall (fun c => length (snd c) = Pd.len g /\ Forall (fun x => notna x = true) (snd c))
           (Pd.df_columns g) /\
    Forall (fun x => exists l, x = Str l /\ In l labels) (column g "de_gender") /\
    Forall (fun x => exists l, x = Str l /\ In l labels2) (column g "fr_gender") /\
    Forall (fun x => exists l, x = Str l /\ In l labels2) (column g "de_gender_grouped").
Proof.
  intros H. destruct (notebook_table H) as [T [L [_ E]]].
  eexists. split; [exact E |]. notebook_fields.
  set (G := filter both_marked (filter is_noun T)). cbv zeta.
  unfold Pd.len, frame, labelled, grouped_column, column.
  cbn [Pd.df_index Pd.df_columns app].
  rewrite RangeIndex_length.
  split; [reflexivity |]. split; [reflexivity |]. split; [| split; [| split]].
  - repeat (apply Forall_cons;
      [ split; cbn [snd];
        [ now rewrite length_map
        | apply Forall_map_in; intros r Hr;
          destruct (retained_notna T r Hr) as [? [? ?]];
          first [reflexivity | assumption] ]
      |]).
    apply Forall_nil.
  - simpl. apply Forall_map_in. intros r Hr.
    exists (de_label r). split; [reflexivity | apply (labels_of_retained T r Hr)].
  - simpl. apply Forall_map_in. intros r Hr.
    exists (fr_label r). split; [reflexivity | apply (labels_of_retained T r Hr)].
  - simpl. apply Forall_map_in. intros r Hr.
    exists (group (de_label r)). split; [reflexivity | apply (labels_of_retained T r Hr)].
Qed.

Lemma nouns_gendered_has_no_missing_value_witness :
  table sample /\
  exists nb, notebook sample = Ok nb /\
    let g := nb_nouns_gendered nb in
    Pd.df_index g = Pd.RangeIndex (Pd.len g) /\
    List.map fst (Pd.df_columns g)
      = ["de"; "fr"; "cat"; "de_gender"; "fr_gender"; "de_gender_grouped"]%string /\
    Forall (fun c => length (snd c) = Pd.len g /\ Forall (fun x => notna x = true) (snd c))
           (Pd.df_columns g) /\
    Forall (fun x => exists l, x = Str l /\ In l labels) (column g "de_gender") /\
    Forall (fun x => exists l, x = Str l /\ In l labels2) (column g "fr_gender") /\
    Forall (fun x => exists l, x = Str l /\ In l labels2) (column g "de_gender_grouped").
Proof.
  split; [exact sample_table | apply (nouns_gendered_has_no_missing_value sample_table)].
Defined.

(** ** The printed counts *)

Lemma filter_negb_length {A} (p : A -> bool) (l : list A) :
  length (filter p l) + length (filter (fun a => negb (p a)) l) = length l.
Proof. induction l as [| a l IH]; simpl; [reflexivity |]. destruct (p a); simpl; lia. Qed.

(** X5.  Cell [print(f'We have {len(nouns)} nouns, ... We discarded
    {len(nouns)-len(nouns_gendered)} lines ...')]: the three numbers are the
    number of noun Records, the number of those with both markers and the
    number of those that lack a marker; so the difference is never negative
    and the last two add up to the first. *)
Theorem report_counts (loaded : Pd.DataFrame) :
  table loaded ->
  exists nb, notebook loaded = Ok nb /\
    report (nb_nouns nb) (nb_nouns_gendered nb)
    = (Z.of_nat (length (records (nb_nouns nb))),
       Z.of_nat (length (filter both_marked (records (nb_nouns nb)))),
       Z.of_nat (length (filter (fun r => negb (both_marked r)) (records (nb_nouns nb))))).
Proof.
  intros H. destruct (notebook_table H) as [T [L [_ E]]].
  eexists. split; [exact E |]. notebook_fields.
  set (N := filter is_noun T). rewrite records_frame.
  unfold report, Pd.len, frame. cbn [Pd.df_index]. rewrite !RangeIndex_length.
  pose proof (filter_negb_length both_marked N) as Hc.
  repeat f_equal. lia.
Qed.

Lemma report_counts_witness :
  table sample /\
  exists nb, notebook sample = Ok nb /\
    report (nb_nouns nb) (nb_nouns_gendered nb)
    = (Z.of_nat (length (records (nb_nouns nb))),
       Z.of_nat (length (filter both_marked (records (nb_nouns nb)))),
       Z.of_nat (length (filter (fun r => negb (both_marked r)) (records (nb_nouns nb))))).
Proof.
  split; [exact sample_table | apply (report_counts sample_table)].
Defined.

(** ** From the loaded table to the gendered nouns *)

Lemma filter_filter {A} (p q : A -> bool) (l : list A) :
  filter q (filter p l) = filter (fun a => p a && q a) l.
Proof.
  induction l as [| a l IH]; simpl; [reflexivity |].
  destruct (p a); simpl; [destruct (q a); now rewrite IH | exact IH].
Qed.

(** X6.  Cells 7 to 10 together: the Records of [nouns_gendered] are the Records
    of the loaded table that are nouns and have both markers, in the order
    of the file; the Records of [defr] are those of the loaded table. *)
Theorem gendered_records_of_loaded (loaded : Pd.DataFrame) :
  table loaded ->
  exists nb, notebook loaded = Ok nb /\
    records (nb_defr nb) = records loaded /\
    records (nb_nouns_gendered nb)
      = filter (fun r => is_noun r && both_marked r) (records loaded) /\
    Pd.len (nb_nouns_gendered nb) <= Pd.len (nb_nouns nb) <= Pd.len loaded.
Proof.
  intros H. destruct (notebook_table H) as [T [L [ET E]]].
  eexists. split; [exact E |]. notebook_fields.
  rewrite !records_frame, ET, filter_filter.
  split; [reflexivity |]. split; [reflexivity |].
  unfold Pd.len, frame. cbn [Pd.df_index]. rewrite !RangeIndex_length, <- L.
  rewrite <- (filter_filter is_noun both_marked T).
  split; apply filter_length_le.
Qed.

Lemma gendered_records_of_loaded_witness :
  table sample /\
  exists nb, notebook sample = Ok nb /\
    records (nb_defr nb) = records sample /\
    records (nb_nouns_gendered nb)
      = filter (fun r => is_noun r && both_marked r) (records sample) /\
    Pd.len (nb_nouns_gendered nb) <= Pd.len (nb_nouns nb) <= Pd.len sample.
Proof.
  split; [exact sample_table | apply (gendered_records_of_loaded sample_table)].
Defined.

(** ** The two tables side by side *)

Lemma filter_map_length {A B} (p : B -> bool) (f : A -> B) (l : list A) :
  length (filter p (List.map f l)) = length (filter (fun a => p (f a)) l).
Proof.
  induction l as [| a l IH]; simpl; [reflexivity |].
  destruct (p (f a)); simpl; now rewrite IH.
Qed.

Lemma filter_or_length {A} (p q : A -> bool) (l : list A) :
  (forall a, In a l -> p a && q a = false) ->
  length (filter (fun a => p a || q a) l) = length (filter p l) + length (filter q l).
Proof.
  induction l as [| a l IH]; intros H; simpl; [reflexivity |].
  pose proof (H a (or_introl eq_refl)) as Ha.
  assert (IH' := IH (fun b Hb => H b (or_intror Hb))).
  destruct (p a), (q a); simpl in *; try discriminate; lia.
Qed.

Lemma filter_ext_length {A} (p q : A -> bool) (l : list A) :
  (forall a, In a l -> p a = q a) -> length (filter p l) = length (filter q l).
Proof. intros H. now rewrite (filter_ext_in p q l H). Qed.

Lemma cm_cell G (i j : nat) :
  i < 3 -> j < 3 ->
  nth j (nth i (Np.count_pairs 3 (cm_pairs G)) []) 0%Z
  = Z.of_nat (length (filter (fun r => (Sk.ind labels (de_label r) =? i)%nat
                                       && (Sk.ind labels (fr_label r) =? j)%nat) G)).
Proof.
  intros Hi Hj. rewrite count_pairs_cell by assumption.
  unfold cm_pairs. now rewrite filter_map_length.
Qed.

Lemma cm2_cell G (i j : nat) :
  i < 2 -> j < 2 ->
  nth j (nth i (Np.count_pairs 2 (cm2_pairs G)) []) 0%Z
  = Z.of_nat (length (filter (fun r => (Sk.ind labels2 (group (de_label r)) =? i)%nat
                                       && (Sk.ind labels2 (fr_label r) =? j)%nat) G)).
Proof.
  intros Hi Hj. rewrite count_pairs_cell by assumption.
  unfold cm2_pairs. now rewrite filter_map_length.
Qed.

Lemma count_pairs_2 (pairs : list (nat * nat)) :
  let c := fun i j => nth j (nth i (Np.count_pairs 2 pairs) []) 0%Z in
  Np.count_pairs 2 pairs = [[c 0 0; c 0 1]; [c 1 0; c 1 1]].
Proof. reflexivity. Qed.

(** The row of the masculine of [cm2] is the sum of the rows of the
    masculine and the neuter of [cm]; the row of the feminine is the same in
    both. *)
Lemma merged_rows G :
  (forall r, In r G ->
     In (de_label r) labels /\ In (group (de_label r)) labels2 /\ In (fr_label r) labels2) ->
  let c := fun i j => nth j (nth i (Np.count_pairs 3 (cm_pairs G)) []) 0%Z in
  Np.count_pairs 2 (cm2_pairs G) = [[Z.add (c 0 0) (c 2 0); Z.add (c 0 1) (c 2 1)]; [c 1 0; c 1 1]].
Proof.
  intros HG c. rewrite count_pairs_2. cbv zeta. unfold c.
  rewrite !cm2_cell, !cm_cell by lia.
  rewrite <- !Nat2Z.inj_add.
  assert (M : forall j, j < 2 ->
    length (filter (fun r => (Sk.ind labels2 (group (de_label r)) =? 0)%nat
                             && (Sk.ind labels2 (fr_label r) =? j)%nat) G)
    = length (filter (fun r => (Sk.ind labels (de_label r) =? 0)%nat
                               && (Sk.ind labels (fr_label r) =? j)%nat) G)
      + length (filter (fun r => (Sk.ind labels (de_label r) =? 2)%nat
                                 && (Sk.ind labels (fr_label r) =? j)%nat) G)).
  { intros j Hj. rewrite <- filter_or_length.
    - apply filter_ext_length. intros r Hr. cbv beta.
      destruct (HG r Hr) as [Hd [_ Hf]]. unfold labels in Hd. unfold labels2 in Hf.
      destruct Hd as [<- | [<- | [<- | []]]]; destruct Hf as [<- | [<- | []]];
        destruct j as [| [| j]]; try lia; reflexivity.
    - intros r Hr. cbv beta.
      destruct (HG r Hr) as [Hd _]. unfold labels in Hd.
      destruct (Sk.ind labels (fr_label r) =? j)%nat;
        destruct Hd as [<- | [<- | [<- | []]]]; reflexivity. }
  assert (F : forall j, j < 2 ->
    length (filter (fun r => (Sk.ind labels2 (group (de_label r)) =? 1)%nat
                             && (Sk.ind labels2 (fr_label r) =? j)%nat) G)
    = length (filter (fun r => (Sk.ind labels (de_label r) =? 1)%nat
                               && (Sk.ind labels (fr_label r) =? j)%nat) G)).
  { intros j Hj. apply filter_ext_length. intros r Hr. cbv beta.
    destruct (HG r Hr) as [Hd [_ Hf]]. unfold labels in Hd. unfold labels2 in Hf.
    destruct Hd as [<- | [<- | [<- | []]]]; destruct Hf as [<- | [<- | []]];
      destruct j as [| [| j]]; try lia; reflexivity. }
  rewrite !M, !F by lia. reflexivity.
Qed.

(** X7.  Cells [cm = confusion_matrix(...)] and [cm2 = confusion_matrix(...)]:
    grouping moves the row of the neuter into the row of the masculine and
    changes nothing else, so [cm2] is computed from [cm] alone; both tables
    count every gendered noun once. *)
Theorem grouping_merges_neuter_row (loaded : Pd.DataFrame) :
  table loaded ->
  exists nb, notebook loaded = Ok nb /\
    let c := fun i j => nth j (nth i (nb_cm nb) []) 0%Z in
    nb_cm2 nb = [[Z.add (c 0 0) (c 2 0); Z.add (c 0 1) (c 2 1)]; [c 1 0; c 1 1]] /\
    Np.sum (nb_cm nb) = Z.of_nat (Pd.len (nb_nouns_gendered nb)) /\
    Np.sum (nb_cm2 nb) = Z.of_nat (Pd.len (nb_nouns_gendered nb)).
Proof.
  intros H. destruct (notebook_table H) as [T [L [_ E]]].
  eexists. split; [exact E |]. notebook_fields.
  set (G := filter both_marked (filter is_noun T)).
  assert (HG : forall r, In r G ->
    In (de_label r) labels /\ In (group (de_label r)) labels2 /\ In (fr_label r) labels2)
    by (intros r Hr; apply (labels_of_retained T r Hr)).
  clearbody G. cbv zeta.
  unfold Pd.len, frame. cbn [Pd.df_index]. rewrite RangeIndex_length.
  split; [exact (merged_rows G HG) |]. split.
  - destruct (@agreement_labelled labels de_label fr_label G) as [_ [Hs _]]; [| exact Hs].
    intros r Hr. destruct (HG r Hr) as [Hd [_ Hf]].
    split; [assumption | now apply labels2_labels].
  - destruct (@agreement_labelled labels2 (fun r => group (de_label r)) fr_label G)
      as [_ [Hs _]]; [| exact Hs].
    intros r Hr. destruct (HG r Hr) as [_ [Hg Hf]]. auto.
Qed.

Lemma grouping_merges_neuter_row_witness :
  table sample /\
  exists nb, notebook sample = Ok nb /\
    let c := fun i j => nth j (nth i (nb_cm nb) []) 0%Z in
    nb_cm2 nb = [[Z.add (c 0 0) (c 2 0); Z.add (c 0 1) (c 2 1)]; [c 1 0; c 1 1]] /\
    Np.sum (nb_cm nb) = Z.of_nat (Pd.len (nb_nouns_gendered nb)) /\
    Np.sum (nb_cm2 nb) = Z.of_nat (Pd.len (nb_nouns_gendered nb)).
Proof.
  split; [exact sample_table | apply (grouping_merges_neuter_row sample_table)].
Defined.

(** ** The value of the agreement ratio *)




(** ** The Cross-tabulator and the order of the pairs *)

Lemma filter_Permutation {A} (p : A -> bool) (l l' : list A) :
  Permutation l l' -> Permutation (filter p l) (filter p l').
Proof.
  induction 1 as [| x l l' _ IH | x y l | l l' l'' _ IH1 _ IH2]; simpl.
  - constructor.
  - destruct (p x); [now constructor | assumption].
  - destruct (p x), (p y); try apply Permutation_refl. apply perm_swap.
  - now apply Permutation_trans with (filter p l').
Qed.

Lemma existsb_Permutation {A} (p : A -> bool) (l l' : list A) :
  Permutation l l' -> existsb p l = existsb p l'.
Proof.
  induction 1 as [| x l l' _ IH | x y l | l l' l'' _ IH1 _ IH2]; simpl.
  - reflexivity.
  - now rewrite IH.
  - destruct (p x), (p y); reflexivity.
  - congruence.
Qed.

Lemma count_pairs_Permutation (n : nat) (pairs pairs' : list (nat * nat)) :
  Permutation pairs pairs' -> Np.count_pairs n pairs = Np.count_pairs n pairs'.
Proof.
  intros H. unfold Np.count_pairs.
  apply map_ext. intros i. apply map_ext. intros j. f_equal.
  apply Permutation_length. now apply filter_Permutation.
Qed.

(** X9.  Cells [cm = confusion_matrix(...)]: the outcome of the Cross-tabulator,
    a table or an error, depends on the pairs of labels and not on their
    order: listing the same pairs in another order gives the same outcome. *)
Theorem confusion_matrix_order_independent (ls : list str) (l l' : list (str * str)) :
  Permutation l l' ->
  Sk.confusion_matrix (List.map (fun p => Str (fst p)) l) (List.map (fun p => Str (snd p)) l) ls
  = Sk.confusion_matrix (List.map (fun p => Str (fst p)) l')
                        (List.map (fun p => Str (snd p)) l') ls.
Proof.
  intros H. unfold Sk.confusion_matrix.
  rewrite <- !(map_map fst Str), <- !(map_map snd Str).
  rewrite !check_targets_Str by (now rewrite !length_map).
  rewrite !bind_ret. cbv zeta. cbn [fst snd].
  destruct (length ls =? 0)%nat; [reflexivity |].
  rewrite !length_map, (Permutation_length H).
  destruct (length l' =? 0)%nat; [reflexivity |].
  rewrite (existsb_Permutation (fun y => existsb (str_eqb y) ls)
             (Permutation_map fst H)).
  destruct (negb _); [reflexivity |].
  f_equal. apply count_pairs_Permutation. apply filter_Permutation.
  rewrite !map_map, !combine_map. now apply Permutation_map.
Qed.

Lemma confusion_matrix_order_independent_witness :
  Permutation [(py "m", py "m"); (py "n", py "f")] [(py "n", py "f"); (py "m", py "m")] /\
  Sk.confusion_matrix [Str (py "m"); Str (py "n")] [Str (py "m"); Str (py "f")] labels
  = Sk.confusion_matrix [Str (py "n"); Str (py "m")] [Str (py "f"); Str (py "m")] labels.
Proof.
  split; [apply perm_swap |].
  apply (@confusion_matrix_order_independent labels
           [(py "m", py "m"); (py "n", py "f")] [(py "n", py "f"); (py "m", py "m")]).
  apply perm_swap.
Defined.

(** ** The Extractor at the first brace *)

Lemma match_not_brace (genders : str) (x : char) (s : str) :
  x <> cp "{" -> Re.match_ (gender_pattern genders) (x :: s) = None.
Proof.
  intros H. unfold Re.match_, gender_pattern. cbn [Re.run].
  assert (E : char_eqb x (cp "{") = false) by (now apply N.eqb_neq).
  rewrite E. reflexivity.
Qed.

Lemma search_skips (genders before rest : str) :
  ~ In (cp "{") before ->
  Re.search (gender_pattern genders) (before ++ rest) = Re.search (gender_pattern genders) rest.
Proof.
  induction before as [| x before IH]; intros H; [reflexivity |].
  change ((x :: before) ++ rest) with (x :: (before ++ rest)).
  cbn [Re.search]. rewrite match_not_brace.
  - apply IH. intros Hin. apply H. now right.
  - intros ->. apply H. now left.
Qed.

Lemma search_no_brace (genders text : str) :
  ~ In (cp "{") text -> Re.search (gender_pattern genders) text = None.
Proof.
  intros H. rewrite <- (app_nil_r text), search_skips by assumption. reflexivity.
Qed.

Lemma class_member (genders : str) (g : char) :
  In g genders -> existsb (char_eqb g) genders = true.
Proof.
  intros H. apply existsb_exists. exists g. split; [assumption | apply N.eqb_refl].
Qed.

(** X10.  Cell [nouns.de.str.extract(pattern)]: a text without a brace yields the
    missing value.  When the first brace of a text opens a gender tag, the
    Extractor yields that tag, whatever follows it: the form [{g}], also
    when [pl}] comes next, else the form [{g?pl}]. *)
Theorem extractor_tag_at_first_brace (genders before after : str) (g : char) :
  In g genders ->
  ~ In (cp "{") before ->
  Pd.str_extract_cell (gender_pattern genders) (Str before) = NaN /\
  Pd.str_extract_cell (gender_pattern genders) (Str (before ++ [cp "{"; g; cp "}"] ++ after))
    = Str [cp "{"; g; cp "}"] /\
  (forall x, x <> Re.newline -> x <> cp "}" ->
     Pd.str_extract_cell (gender_pattern genders)
       (Str (before ++ [cp "{"; g; x; cp "p"; cp "l"; cp "}"] ++ after))
     = Str [cp "{"; g; x; cp "p"; cp "l"; cp "}"]).
Proof.
  intros Hg Hb. pose proof (class_member _ _ Hg) as Hc.
  unfold Pd.str_extract_cell. split; [| split].
  - now rewrite search_no_brace.
  - rewrite search_skips by assumption.
    cbn [app Re.search]. unfold Re.match_, gender_pattern. cbn [Re.run].
    change (char_eqb (cp "{") (cp "{")) with true. cbv iota.
    cbn [flat_map List.map app fst snd Re.run]. rewrite Hc.
    cbn [flat_map List.map app fst snd Re.run].
    change (char_eqb (cp "}") (cp "}")) with true. cbv iota.
    reflexivity.
  - intros x Hn Hx. rewrite search_skips by assumption.
    assert (En : char_eqb x Re.newline = false) by (now apply N.eqb_neq).
    assert (Ex : char_eqb x (cp "}") = false) by (now apply N.eqb_neq).
    cbn [app Re.search]. unfold Re.match_, gender_pattern. cbn [Re.run].
    change (char_eqb (cp "{") (cp "{")) with true. cbv iota.
    cbn [flat_map List.map app fst snd Re.run]. rewrite Hc.
    cbn [flat_map List.map app fst snd Re.run]. rewrite Ex, En.
    cbn [flat_map List.map app fst snd Re.run].
    change (char_eqb (cp "p") (cp "p")) with true. cbv iota.
    cbn [flat_map List.map app fst snd Re.run].
    change (char_eqb (cp "l") (cp "l")) with true. cbv iota.
    cbn [flat_map List.map app fst snd Re.run].
    change (char_eqb (cp "}") (cp "}")) with true. cbv iota.
    reflexivity.
Qed.

Lemma extractor_tag_at_first_brace_witness :
  In (cp "f") (py "mf") /\ ~ In (cp "{") (py "les gens ") /\
  Pd.str_extract_cell fr_pattern (Str (py "les gens ")) = NaN /\
  Pd.str_extract_cell fr_pattern (Str (py "les gens {f}pl}")) = Str (py "{f}") /\
  Pd.str_extract_cell fr_pattern (Str (py "les gens {f.pl}")) = Str (py "{f.pl}").
Proof.
  assert (Hg : In (cp "f") (py "mf")) by (simpl; tauto).
  assert (Hb : ~ In (cp "{") (py "les gens ")).
  { simpl. intros C. repeat (destruct C as [C | C]; [discriminate C |]). exact C. }
  split; [exact Hg |]. split; [exact Hb |].
  split; [exact (proj1 (@extractor_tag_at_first_brace
                         (py "mf") (py "les gens ") (py "pl}") (cp "f") Hg Hb)) |].
  split; [exact (proj1 (proj2 (@extractor_tag_at_first_brace
                                 (py "mf") (py "les gens ") (py "pl}") (cp "f") Hg Hb))) |].
  apply (proj2 (proj2 (@extractor_tag_at_first_brace
                         (py "mf") (py "les gens ") [] (cp "f") Hg Hb)) (cp "."));
    discriminate.
Defined.

(** ** The Loader and the header line *)




(** ** The correlation and the tables *)

Lemma sum_rows_count_pairs (n : nat) (pairs : list (nat * nat)) :
  (forall p, In p pairs -> in_range n p) ->
  Np.sum_rows (Np.count_pairs n pairs)
  = List.map (fun i => Z.of_nat (length (filter (fun p => (fst p =? i)%nat) pairs))) (seq 0 n).
Proof.
  intros H. unfold Np.sum_rows, Np.count_pairs. rewrite map_map.
  apply map_ext. intros i.
  rewrite (@map_ext _ _ _ (fun j => Z.of_nat (length
             (filter (fun p => (snd p =? j)%nat) (filter (fun p => (fst p =? i)%nat) pairs))))).
  - apply sum1_bins. intros p Hp. apply filter_In in Hp. apply (H p (proj1 Hp)).
  - intros j. now rewrite filter_filter_length.
Qed.

Lemma nth_map_seq {B} (F : nat -> B) (n j : nat) (d : B) :
  j < n -> nth j (List.map F (seq 0 n)) d = F j.
Proof.
  intros H. rewrite (@nth_indep _ _ j d (F 0)) by (rewrite length_map, length_seq; exact H).
  rewrite (map_nth F (seq 0 n) 0 j). now rewrite seq_nth.
Qed.

Lemma sum_cols_count_pairs (n : nat) (pairs : list (nat * nat)) :
  (forall p, In p pairs -> in_range n p) ->
  Np.sum_cols (Np.count_pairs n pairs)
  = List.map (fun j => Z.of_nat (length (filter (fun p => (snd p =? j)%nat) pairs))) (seq 0 n).
Proof.
  intros H. unfold Np.sum_cols.
  rewrite (proj2 (count_pairs_shape n pairs)).
  apply map_ext_in. intros j Hj. apply in_seq in Hj.
  rewrite <- (@sum1_bins _ fst n (filter (fun p => (snd p =? j)%nat) pairs))
    by (intros p Hp; apply filter_In in Hp; apply (H p (proj1 Hp))).
  f_equal. unfold Np.count_pairs. rewrite map_map.
  apply map_ext. intros i. rewrite nth_map_seq by lia. f_equal.
  rewrite <- filter_filter_length. apply filter_ext_length.
  intros p _. apply andb_comm.
Qed.

Lemma dot_maps {A} (a b : A -> Z) (l : list A) :
  Np.dot (List.map a l) (List.map b l) = Np.sum1 (List.map (fun i => (a i * b i)%Z) l).
Proof. unfold Np.dot. now rewrite combine_map, map_map. Qed.

Lemma sum1_pick (w : nat -> Z) (k s n : nat) :
  Np.sum1 (List.map (fun i => if (k =? i)%nat then w i else 0%Z) (seq s n))
  = if ((s <=? k) && (k <? s + n))%nat then w k else 0%Z.
Proof.
  revert s. induction n as [| n IH]; intros s; simpl.
  - destruct (Nat.leb_spec s k), (Nat.ltb_spec k (s + 0)); simpl; auto; lia.
  - rewrite IH.
    destruct (Nat.eqb_spec k s), (Nat.leb_spec (S s) k), (Nat.ltb_spec k (S s + n)),
      (Nat.leb_spec s k), (Nat.ltb_spec k (s + S n)); simpl; subst; lia.
Qed.

(** Bins weighted by [w]: every entry brings the weight of its bin. *)
Lemma sum1_weighted_bins {A} (key : A -> nat) (w : nat -> Z) (n : nat) (l : list A) :
  (forall a, In a l -> key a < n) ->
  Np.sum1 (List.map (fun i => (w i * Z.of_nat (length (filter (fun a => (key a =? i)%nat) l)))%Z)
             (seq 0 n))
  = Np.sum1 (List.map (fun a => w (key a)) l).
Proof.
  induction l as [| a l IH]; intros H.
  - simpl. induction (seq 0 n); simpl; lia.
  - rewrite (@map_ext _ _ _
      (fun i => ((if (key a =? i)%nat then w i else 0)
                 + w i * Z.of_nat (length (filter (fun x => (key x =? i)%nat) l)))%Z)).
    + rewrite sum1_map_add, sum1_pick, IH by (intros; apply H; now right).
      specialize (H a (or_introl eq_refl)).
      change (0 <=? key a)%nat with true. change (0 + n) with n.
      destruct (Nat.ltb_spec (key a) n); [| lia].
      simpl andb. cbv iota. reflexivity.
    + intros i. simpl. destruct (key a =? i)%nat; simpl length; lia.
Qed.

Lemma dot_bins {A} (k1 k2 : A -> nat) (n : nat) (l : list A) :
  (forall a, In a l -> k1 a < n) ->
  Np.dot (List.map (fun i => Z.of_nat (length (filter (fun a => (k1 a =? i)%nat) l))) (seq 0 n))
         (List.map (fun i => Z.of_nat (length (filter (fun a => (k2 a =? i)%nat) l))) (seq 0 n))
  = Np.sum1 (List.map (fun a => Z.of_nat (length (filter (fun a' => (k2 a' =? k1 a)%nat) l))) l).
Proof.
  intros H. rewrite dot_maps.
  rewrite <- (@sum1_weighted_bins _ k1
                (fun i => Z.of_nat (length (filter (fun a => (k2 a =? i)%nat) l))) n l H).
  f_equal. apply map_ext. intros i. apply Z.mul_comm.
Qed.

Lemma ind_eqb (cs : list str) (x y : str) :
  In x cs -> (Sk.ind cs x =? Sk.ind cs y)%nat = str_eqb x y.
Proof.
  intros H. destruct (Nat.eqb_spec (Sk.ind cs x) (Sk.ind cs y)) as [E | E].
  - symmetry. apply str_eqb_eq. exact (@ind_inj _ _ _ H E).
  - symmetry. apply str_eqb_neq. intros E'. apply E. now rewrite E'.
Qed.

Section Classes.

Variable cs : list str.
Variables f g : cell * cell * cell -> str.
Variable G : list (cell * cell * cell).
Hypothesis covered : forall r, In r G -> In (f r) cs /\ In (g r) cs.

Let pairs := List.map (fun r => (Sk.ind cs (f r), Sk.ind cs (g r))) G.

Lemma pairs_in_range : forall p, In p pairs -> in_range (length cs) p.
Proof.
  intros p Hp. apply in_map_iff in Hp. destruct Hp as [r [<- Hr]].
  split; simpl; apply ind_lt, (covered r Hr).
Qed.

Lemma pairs_matches (a b : cell * cell * cell -> str) (k1 k2 : nat * nat -> nat) :
  (forall r, k1 (Sk.ind cs (f r), Sk.ind cs (g r)) = Sk.ind cs (a r)) ->
  (forall r, k2 (Sk.ind cs (f r), Sk.ind cs (g r)) = Sk.ind cs (b r)) ->
  (forall r, In r G -> In (b r) cs) ->
  Np.sum1 (List.map (fun p => Z.of_nat (length (filter (fun p' => (k2 p' =? k1 p)%nat) pairs)))
             pairs)
  = label_matches a b G.
Proof.
  intros H1 H2 Hb. unfold pairs, label_matches. rewrite map_map. f_equal.
  apply map_ext. intros r. f_equal. rewrite filter_map_length.
  apply filter_ext_length. intros r' Hr'. rewrite H1, H2. apply ind_eqb, Hb, Hr'.
Qed.

(** Matthews' formula on the table of the pairs numbered by [cs] does not
    depend on [cs]. *)
Lemma mcc_of_table_labels :
  mcc_of_table (Np.count_pairs (length cs) pairs) = mcc_labels f g G.
Proof.
  unfold mcc_of_table, mcc_labels. cbv zeta.
  rewrite sum_rows_count_pairs, sum_cols_count_pairs, count_pairs_diagonal
    by exact pairs_in_range.
  rewrite (@sum1_bins _ snd (length cs) pairs)
    by (intros p Hp; apply (pairs_in_range p Hp)).
  rewrite !dot_bins by (intros p Hp; apply (pairs_in_range p Hp)).
  rewrite (@pairs_matches f g fst snd), (@pairs_matches g g snd snd),
    (@pairs_matches f f fst fst);
    try reflexivity; try (intros r Hr; apply (covered r Hr)).
  assert (Ec : length (filter (fun p => (fst p =? snd p)%nat) pairs)
               = length (filter (fun r => str_eqb (f r) (g r)) G)).
  { unfold pairs. rewrite filter_map_length. apply filter_ext_length.
    intros r Hr. cbn [fst snd]. apply ind_eqb, (covered r Hr). }
  assert (El : length pairs = length G) by (unfold pairs; apply length_map).
  rewrite Ec, !El. reflexivity.
Qed.

End Classes.

Lemma insert_sorted_In (x y : str) (l : list str) :
  x = y \/ In x l -> In x (Np.insert_sorted y l).
Proof.
  induction l as [| z l IH]; simpl.
  - intros [-> | []]. now left.
  - intros H. destruct (str_eqb y z) eqn:E.
    + apply str_eqb_eq in E. subst z. destruct H as [-> | H]; [now left | exact H].
    + destruct (Np.str_ltb y z).
      * destruct H as [-> | H]; [now left | now right].
      * destruct H as [-> | [-> | H]];
          [right; apply IH; now left | now left | right; apply IH; now right].
Qed.

Lemma unique_In (v : list str) (x : str) : In x v -> In x (Np.unique v).
Proof.
  induction v as [| y v IH]; simpl; [tauto |].
  intros [-> | H]; apply insert_sorted_In; [now left | right; auto].
Qed.

Lemma matthews_corrcoef_labelled (f g : cell * cell * cell -> str) G :
  Sk.matthews_corrcoef (List.map (fun r => Str (f r)) G) (List.map (fun r => Str (g r)) G)
  = Ok (mcc_labels f g G).
Proof.
  rewrite <- (map_map f Str), <- (map_map g Str). unfold Sk.matthews_corrcoef.
  rewrite check_targets_Str by (now rewrite !length_map).
  rewrite bind_ret. cbv zeta. cbn [fst snd]. rewrite !map_map, combine_map.
  rewrite <- (@mcc_of_table_labels (Np.unique (List.map f G ++ List.map g G)) f g G).
  - reflexivity.
  - intros r Hr. split; apply unique_In, in_or_app; [left | right]; now apply in_map.
Qed.

(** X12.  Cells [matthews_corrcoef(nouns_gendered['de_gender'], ...)] and the same
    for [de_gender_grouped]: when a noun was retained, each correlation is
    what Matthews' formula gives on the table already computed, [cm] for the
    first and [cm2] for the second.  That [matthews_corrcoef] numbers the
    classes in sorted order and leaves out a class that does not occur
    makes no difference. *)
Theorem correlation_from_tables (loaded : Pd.DataFrame) :
  table loaded ->
  exists nb, notebook loaded = Ok nb /\
    (Pd.len (nb_nouns_gendered nb) <> 0 ->
     nb_phi nb = Ok (mcc_of_table (nb_cm nb)) /\
     nb_phi_grouped nb = Ok (mcc_of_table (nb_cm2 nb))).
Proof.
  intros H. destruct (notebook_table H) as [T [L [_ E]]].
  eexists. split; [exact E |]. notebook_fields.
  set (G := filter both_marked (filter is_noun T)).
  assert (HG : forall r, In r G ->
    In (de_label r) labels /\ In (group (de_label r)) labels2 /\ In (fr_label r) labels2)
    by (intros r Hr; apply (labels_of_retained T r Hr)).
  clearbody G. intros _. split.
  - unfold phi, frame, labelled, grouped_column, Pd.getitem, Pd.values. simpl.
    rewrite matthews_corrcoef_labelled. f_equal. symmetry.
    apply (@mcc_of_table_labels labels de_label fr_label G).
    intros r Hr. destruct (HG r Hr) as [Hd [_ Hf]].
    split; [assumption | now apply labels2_labels].
  - unfold phi, frame, labelled, grouped_column, Pd.getitem, Pd.values. simpl.
    rewrite (matthews_corrcoef_labelled (fun r => group (de_label r)) fr_label G).
    f_equal. symmetry.
    apply (@mcc_of_table_labels labels2 (fun r => group (de_label r)) fr_label G).
    intros r Hr. destruct (HG r Hr) as [_ [Hg Hf]]. auto.
Qed.

Lemma correlation_from_tables_witness :
  table sample /\
  exists nb, notebook sample = Ok nb /\
    Pd.len (nb_nouns_gendered nb) <> 0 /\
    nb_phi nb = Ok (mcc_of_table (nb_cm nb)) /\
    nb_phi_grouped nb = Ok (mcc_of_table (nb_cm2 nb)).
Proof.
  split; [exact sample_table |].
  destruct (correlation_from_tables sample_table) as [nb [E Hnb]].
  assert (P : Pd.len (nb_nouns_gendered nb) <> 0).
  { vm_compute in E. inversion E. discriminate. }
  exists nb. split; [exact E |]. split; [exact P | exact (Hnb P)].
Defined.

(** ** The correlation of labels that agree *)

Lemma sum1_le {A} (F : A -> Z) (m : Z) (l : list A) :
  (forall a, In a l -> (F a <= m)%Z) ->
  (Np.sum1 (List.map F l) <= Z.of_nat (length l) * m)%Z.
Proof.
  induction l as [| a l IH]; intros H.
  - simpl. lia.
  - specialize (IH (fun b Hb => H b (or_intror Hb))).
    pose proof (H a (or_introl eq_refl)).
    change (Np.sum1 (List.map F (a :: l))) with (F a + Np.sum1 (List.map F l))%Z.
    change (length (a :: l)) with (S (length l)). lia.
Qed.

Lemma label_matches_le (a b : cell * cell * cell -> str) G :
  (label_matches a b G <= Z.of_nat (length G) * Z.of_nat (length G))%Z.
Proof.
  unfold label_matches. apply sum1_le. intros r _.
  apply inj_le, filter_length_le.
Qed.

Lemma label_matches_ext (a b a' b' : cell * cell * cell -> str) G :
  (forall r, In r G -> a r = a' r) -> (forall r, In r G -> b r = b' r) ->
  label_matches a b G = label_matches a' b' G.
Proof.
  intros Ha Hb. unfold label_matches. f_equal.
  apply map_ext_in. intros r Hr. f_equal. apply filter_ext_length.
  intros r' Hr'. now rewrite (Ha r Hr), (Hb r' Hr').
Qed.

Lemma mcc_labels_equal (f g : cell * cell * cell -> str) G :
  (forall r, In r G -> f r = g r) ->
  mcc_labels f g G = Sk.MccZero \/
  exists c, (0 < c)%Z /\ mcc_labels f g G = Sk.MccQuotient c (c * c).
Proof.
  intros H. unfold mcc_labels. cbv zeta.
  rewrite (@label_matches_ext f g g g G) by auto.
  rewrite (@label_matches_ext f f g g G) by auto.
  rewrite (filter_all (fun r => str_eqb (f r) (g r)) G)
    by (intros r Hr; apply str_eqb_eq; auto).
  pose proof (label_matches_le g g G) as Hle.
  set (c := (Z.of_nat (length G) * Z.of_nat (length G) - label_matches g g G)%Z) in *.
  destruct (Z.eqb_spec (c * c) 0) as [E | E]; [now left | right].
  exists c. split; [nia | reflexivity].
Qed.

(** X13.  Cell [matthews_corrcoef(nouns_gendered['de_gender'], ...)]: when a noun
    was retained and the German label equals the French label in every
    pair, the correlation is [c / sqrt(c * c)] for a positive [c], which is
    1, or it is [0.0] (one label only occurs). *)
Theorem correlation_of_equal_labels (loaded : Pd.DataFrame) :
  table loaded ->
  exists nb, notebook loaded = Ok nb /\
    (Pd.len (nb_nouns_gendered nb) <> 0 ->
     (forall p, In p (gendered "de_gender" (nb_nouns_gendered nb)) -> fst p = snd p) ->
     nb_phi nb = Ok Sk.MccZero \/
     exists c, (0 < c)%Z /\ nb_phi nb = Ok (Sk.MccQuotient c (c * c))).
Proof.
  intros H. destruct (notebook_table H) as [T [L [_ E]]].
  eexists. split; [exact E |]. notebook_fields.
  set (G := filter both_marked (filter is_noun T)). clearbody G.
  destruct (gendered_frame (Pd.RangeIndex (length G)) G) as [E1 _]. rewrite E1.
  intros _ Hall.
  assert (Heq : forall r, In r G -> de_label r = fr_label r).
  { intros r Hr. specialize (Hall _ (in_map _ _ _ Hr)). simpl in Hall. congruence. }
  unfold phi, frame, labelled, grouped_column, Pd.getitem, Pd.values. simpl.
  rewrite matthews_corrcoef_labelled.
  destruct (mcc_labels_equal de_label fr_label G Heq) as [-> | [c [Hc ->]]];
    [now left | right; eauto].
Qed.

Lemma agreeing_table : table agreeing.
Proof. split; [reflexivity | repeat constructor]. Qed.

Lemma correlation_of_equal_labels_witness :
  table agreeing /\
  exists nb, notebook agreeing = Ok nb /\
    Pd.len (nb_nouns_gendered nb) <> 0 /\
    (forall p, In p (gendered "de_gender" (nb_nouns_gendered nb)) -> fst p = snd p) /\
    (nb_phi nb = Ok Sk.MccZero \/
     exists c, (0 < c)%Z /\ nb_phi nb = Ok (Sk.MccQuotient c (c * c))).
Proof.
  split; [exact agreeing_table |].
  destruct (correlation_of_equal_labels agreeing_table) as [nb [E Hnb]].
  assert (P : Pd.len (nb_nouns_gendered nb) <> 0).
  { vm_compute in E. inversion E. discriminate. }
  assert (Q : forall p, In p (gendered "de_gender" (nb_nouns_gendered nb)) -> fst p = snd p).
  { vm_compute in E. inversion E. intros p [<- | [<- | []]]; reflexivity. }
  exists nb. split; [exact E |]. split; [exact P |]. split; [exact Q | exact (Hnb P Q)].
Defined.
